(** * Genre preferences, user similarity and next-genre recommendation

    A shallow embedding of [utils.py]: [calculate_genre_preferences],
    [find_similar_users] and [find_next_best_genre], with the properties of
    the accompanying specification stated and settled against it.

    Conventions of the embedding.
    - Python exceptions are values of [result]; a function that can raise
      returns [result A].
    - Python dictionaries keep insertion order, and that order decides ties
      in the two [sorted] calls, so a dictionary is an association list
      ([dict_get], [dict_set]); a well-formed dictionary has distinct keys.
    - Python numbers are [pynum]: an [int] or a [float].  Floating-point
      operations are an interface ([FloatArith]) with two instances: IEEE
      binary64 ([binary64], what CPython and numpy compute with) and the
      real numbers ([ideal_reals], the arithmetic the formulas idealise).
    - [ast.literal_eval] and the iteration order of a [set] belong to the
      Python runtime, not to this repository: they are the interface
      [Runtime]; [py_runtime] is a concrete instance used for examples.
      [Runtime] has the outcomes of the parser that keep genres strings; the
      aggregator is given a second time, in [General], with every outcome
      of the parser (exceptions line 30 does not catch, lists whose first
      item is not a string), and the two are shown to agree where both
      apply.
    - How [np.dot] rounds the sum of the products depends on the BLAS numpy
      runs on, so it is an operation of [FloatArith] ([fdot]); the instance
      [binary64] adds the rounded products from left to right.  Statements
      about every [FloatArith] hold for any rounding of the dot product.

    Outside the model: rating cells that are not numbers and frames with
    repeated column names (pandas raises), ints beyond the range of binary64
    where they meet floats (Python raises [OverflowError]), the single
    rounding of Python's quotient of two ints from [2^53] on, and the order
    [sorted] gives to NaN keys. *)

From Stdlib Require Import ZArith List String Ascii Bool Lia Permutation Sorted.
From Stdlib Require Import Floats.
From Stdlib Require Import Reals Lra Psatz.
Import ListNotations.

Set Warnings "-inexact-float".
Local Open Scope string_scope.
Local Open Scope list_scope.
Local Open Scope Z_scope.

(** ** Exceptions *)

Inductive exn : Type :=
| IndexError
| ZeroDivisionError
| ValueError
| SyntaxError
| TypeError
| MemoryError
| RecursionError.

(** [except (ValueError, SyntaxError)] at line 30. *)
Definition caught_at_line_30 (e : exn) : bool :=
  match e with
  | ValueError | SyntaxError => true
  | _ => false
  end.

Inductive result (A : Type) : Type :=
| Ok (a : A)
| Raise (e : exn).

Arguments Ok {A} a.
Arguments Raise {A} e.

Definition bind {A B : Type} (m : result A) (k : A -> result B) : result B :=
  match m with
  | Ok a => k a
  | Raise e => Raise e
  end.

Notation "x <- m ;; k" := (bind m (fun x => k))
  (at level 61, m at next level, right associativity).

(** A [for] loop whose body can raise: the first exception ends the loop. *)
Fixpoint for_each {A S : Type} (body : S -> A -> result S) (l : list A) (s : S)
  : result S :=
  match l with
  | [] => Ok s
  | a :: l' => s' <- body s a ;; for_each body l' s'
  end.

(** ** Floating-point arithmetic *)

Class FloatArith (F : Type) : Type := {
  f_of_Z : Z -> F;
  fadd : F -> F -> F;
  fsub : F -> F -> F;
  fmul : F -> F -> F;
  fdiv : F -> F -> F;
  fsqrt : F -> F;
  feqb : F -> F -> bool;
  fltb : F -> F -> bool;
  fisnan : F -> bool;
  (** [np.dot] on two vectors of the same length.  How the sum of the
      products is rounded is left to the BLAS numpy is built on (fused or
      not, in which order), so it is an operation of its own. *)
  fdot : list F -> list F -> F
}.

(** The sum of the products, each product rounded and added from left to
    right. *)
Definition sum_of_products {F : Type} (zero : F) (add mul : F -> F -> F)
    (u v : list F) : F :=
  fold_left (fun acc ab => add acc (mul (fst ab) (snd ab))) (combine u v) zero.

(** Conversion of a Python [int] to binary64: the nearest float, ties to
    even.  An int beyond the range of binary64, which Python refuses to
    convert, becomes an infinity. *)
Definition float_of_Z (z : Z) : float :=
  SF2Prim (binary_normalize prec emax z 0 false).

#[export] Instance binary64 : FloatArith float := {
  f_of_Z := float_of_Z;
  fadd := PrimFloat.add;
  fsub := PrimFloat.sub;
  fmul := PrimFloat.mul;
  fdiv := PrimFloat.div;
  fsqrt := PrimFloat.sqrt;
  feqb := PrimFloat.eqb;
  fltb := PrimFloat.ltb;
  fisnan := PrimFloat.is_nan;
  fdot := sum_of_products (float_of_Z 0) PrimFloat.add PrimFloat.mul
}.

(** Exact real arithmetic: no rounding, no NaN. *)
Definition ideal_reals : FloatArith R := {|
  f_of_Z := IZR;
  fadd := Rplus;
  fsub := Rminus;
  fmul := Rmult;
  fdiv := Rdiv;
  fsqrt := sqrt;
  feqb := fun x y => if Req_dec_T x y then true else false;
  fltb := fun x y => if Rlt_dec x y then true else false;
  fisnan := fun _ => false;
  fdot := sum_of_products (IZR 0) Rplus Rmult
|}.

(** ** Python runtime services *)

(** What [ast.literal_eval] does with a genre cell, among the outcomes
    that keep the genre a string: a list of string constants, some other
    value (a tuple, say), or a [ValueError] / [SyntaxError].  The other
    outcomes (a list whose first item is not a string, an exception line 30
    does not catch) are those of [General.literal_outcome] below. *)
Inductive literal_result : Type :=
| LitList (items : list string)
| LitOther
| LitError.

Class Runtime : Type := {
  literal_eval : string -> literal_result;
  (** [list(set(xs))]: the order in which a set built from [xs] is iterated *)
  set_order : list string -> list string
}.

(** ** Strings *)

Definition startswith (p s : string) : bool := String.prefix p s.

Definition endswith (p s : string) : bool :=
  let n := String.length s in
  let m := String.length p in
  (m <=? n)%nat && String.eqb (String.substring (n - m) m s) p.

(** ** Insertion-ordered dictionaries *)

Definition dict (V : Type) : Type := list (string * V).

Fixpoint dict_get {V : Type} (k : string) (d : dict V) : option V :=
  match d with
  | [] => None
  | (k', v) :: d' => if String.eqb k k' then Some v else dict_get k d'
  end.

Definition dict_mem {V : Type} (k : string) (d : dict V) : bool :=
  match dict_get k d with
  | Some _ => true
  | None => false
  end.

(** [d[k] = v]: an existing key keeps its position, a new one goes last. *)
Fixpoint dict_set {V : Type} (k : string) (v : V) (d : dict V) : dict V :=
  match d with
  | [] => [(k, v)]
  | (k', v') :: d' =>
      if String.eqb k k' then (k, v) :: d' else (k', v') :: dict_set k v d'
  end.

Definition dict_get_default {V : Type} (k : string) (d : dict V) (dflt : V) : V :=
  match dict_get k d with
  | Some v => v
  | None => dflt
  end.

Definition keys {V : Type} (d : dict V) : list string := map fst d.

(** ** Sorting and slicing *)

Section Sorting.
Context {F : Type} {FA : FloatArith F} {A : Type}.
Variable key : A -> F.

(** [sorted(l, key=key, reverse=True)] is stable: among equal keys the
    original order is kept, so an element goes in front of the first one
    whose key is not greater than its own. *)
Fixpoint insert_desc (x : A) (l : list A) : list A :=
  match l with
  | [] => [x]
  | y :: l' =>
      if fltb (key x) (key y) then y :: insert_desc x l' else x :: y :: l'
  end.

Fixpoint sorted_desc (l : list A) : list A :=
  match l with
  | [] => []
  | x :: l' => insert_desc x (sorted_desc l')
  end.

End Sorting.

(** [l[:n]], negative [n] included. *)
Definition slice_to {A : Type} (l : list A) (n : Z) : list A :=
  if 0 <=? n then firstn (Z.to_nat n) l
  else firstn (List.length l - Z.to_nat (- n))%nat l.

(** ** Python numbers *)

Section Program.
Context {F : Type} {FA : FloatArith F} {RT : Runtime}.

Inductive pynum : Type :=
| PyInt (z : Z)
| PyFloat (x : F).

Definition to_float (v : pynum) : F :=
  match v with
  | PyInt z => f_of_Z z
  | PyFloat x => x
  end.

(** [a + b]: exact on two ints, a float otherwise. *)
Definition py_add (a b : pynum) : pynum :=
  match a, b with
  | PyInt x, PyInt y => PyInt (x + y)
  | _, _ => PyFloat (fadd (to_float a) (to_float b))
  end.

(** [a / n] for an int [n]: always a float; raises on [n = 0].  An int
    operand is converted first, which is Python's quotient for ints below
    [2^53]; from there on Python rounds the exact quotient once, and the
    two can differ in the last bit. *)
Definition py_truediv (a : pynum) (n : Z) : result pynum :=
  if n =? 0 then Raise ZeroDivisionError
  else Ok (PyFloat (fdiv (to_float a) (f_of_Z n))).

(** [i / n] for two ints. *)
Definition int_truediv (i n : Z) : result F :=
  if n =? 0 then Raise ZeroDivisionError
  else Ok (fdiv (f_of_Z i) (f_of_Z n)).

(** ** The rating table *)

(** A row of the data frame: its [genre] cell ([None] for a missing value
    or any value that is not a string) and its other cells, aligned with
    the frame's columns ([None] for [None]/[NaN]). *)
Record Row : Type := {
  genre : option string;
  cells : list (option pynum)
}.

(** [columns] lists the columns other than ["genre"], in order. *)
Record DataFrame : Type := {
  columns : list string;
  rows : list Row
}.

(** [pd.isna] *)
Definition isna (c : option pynum) : bool :=
  match c with
  | None => true
  | Some (PyInt _) => false
  | Some (PyFloat x) => fisnan x
  end.

(** ** [calculate_genre_preferences] *)

(** The list [[total_rating, avg_rating, count]]. *)
Record GenreStat : Type := {
  total : pynum;
  average : pynum;
  count : Z
}.

Definition UserPreferences : Type := dict GenreStat.
Definition Preferences : Type := dict UserPreferences.

(** [defaultdict(lambda: [0, 0, 0])] *)
Definition new_stats : GenreStat :=
  {| total := PyInt 0; average := PyInt 0; count := 0 |}.

(** Lines 22-32: the genre a row is filed under, for a parser with the
    outcomes of [literal_result]; [General.effective_genre] has them all. *)
Definition effective_genre (g : string) : result string :=
  if startswith "[" g && endswith "]" g then
    match literal_eval g with
    | LitList items =>
        match items with
        | first :: _ => Ok first
        | [] => Raise IndexError
        end
    | LitOther => Ok g
    | LitError => Ok g
    end
  else Ok g.

(** Lines 44-46. *)
Definition update_stats (st : GenreStat) (rating : pynum) : result GenreStat :=
  let t := py_add (total st) rating in
  let c := count st + 1 in
  avg <- py_truediv t c ;;
  Ok {| total := t; average := avg; count := c |}.

(** Lines 43-46 for one user column: both default dictionaries create
    their entry on first access. *)
Definition record_rating (g : string) (prefs : Preferences)
    (user : string) (rating : pynum) : result Preferences :=
  let user_prefs := dict_get_default user prefs [] in
  let current_stats := dict_get_default g user_prefs new_stats in
  st <- update_stats current_stats rating ;;
  Ok (dict_set user (dict_set g st user_prefs) prefs).

(** The cells of the columns whose name starts with ["user_"]. *)
Definition user_cells (cols : list string) (row : Row)
  : list (string * option pynum) :=
  filter (fun uc => startswith "user_" (fst uc)) (combine cols (cells row)).

Definition rate_cell (g : string) (prefs : Preferences)
    (uc : string * option pynum) : result Preferences :=
  if isna (snd uc) then Ok prefs
  else
    match snd uc with
    | Some rating => record_rating g prefs (fst uc) rating
    | None => Ok prefs
    end.

(** The body of the loop over rows (lines 17-46). *)
Definition process_row (cols : list string) (prefs : Preferences) (row : Row)
  : result Preferences :=
  match genre row with
  | None => Ok prefs
  | Some raw =>
      if String.eqb raw "" then Ok prefs
      else
        g <- effective_genre raw ;;
        for_each (rate_cell g) (user_cells cols row) prefs
  end.

Definition calculate_rows (cols : list string) (rs : list Row)
  : result Preferences :=
  for_each (process_row cols) rs [].

Definition calculate_genre_preferences (songs_df : DataFrame)
  : result Preferences :=
  calculate_rows (columns songs_df) (rows songs_df).

(** ** [find_similar_users] *)

(** [np.dot] on two vectors of the same length. *)
Definition dot (u v : list F) : F := fdot u v.

(** [np.linalg.norm] of a vector: the square root of its dot product with
    itself. *)
Definition norm (v : list F) : F := fsqrt (dot v v).

(** Lines 96-104. *)
Definition cosine_sim (target_vector user_vector : list F) : F :=
  let dot_product := dot target_vector user_vector in
  let norm_target := norm target_vector in
  let norm_user := norm user_vector in
  if feqb norm_target (f_of_Z 0) || feqb norm_user (f_of_Z 0) then f_of_Z 0
  else fdiv dot_product (fmul norm_target norm_user).

(** Lines 66-69. *)
Definition all_genres_of (prefs : Preferences) : list string :=
  set_order (flat_map (fun up => keys (snd up)) prefs).

(** Lines 74-78. *)
Definition vector_of (all_genres : list string) (prefs : UserPreferences)
  : list F :=
  map (fun g => match dict_get g prefs with
                | Some st => to_float (average st)
                | None => f_of_Z 0
                end) all_genres.

(** Lines 72-79. *)
Definition user_vectors_of (prefs : Preferences) : dict (list F) :=
  let all_genres := all_genres_of prefs in
  fold_left (fun uv up => dict_set (fst up) (vector_of all_genres (snd up)) uv)
            prefs [].

(** Lines 87-106. *)
Definition similarities_of (target_user : string) (target_vector : list F)
    (user_vectors : dict (list F)) : dict F :=
  fold_left (fun sims uv =>
               if String.eqb (fst uv) target_user then sims
               else dict_set (fst uv) (cosine_sim target_vector (snd uv)) sims)
            user_vectors [].

Definition find_similar_users (target_user : string)
    (user_genre_preferences : Preferences) (n : Z) : list string :=
  if negb (dict_mem target_user user_genre_preferences) then []
  else
    let user_vectors := user_vectors_of user_genre_preferences in
    match dict_get target_user user_vectors with
    | None => []
    | Some target_vector =>
        let similarities :=
          similarities_of target_user target_vector user_vectors in
        let similar_users := slice_to (sorted_desc snd similarities) n in
        map fst similar_users
    end.

(** ** [find_next_best_genre] *)

Definition is_empty {A : Type} (l : list A) : bool :=
  match l with
  | [] => true
  | _ :: _ => false
  end.

(** [l.index(x)]: the first position of [x]; raises when [x] is absent. *)
Fixpoint list_index (x : string) (l : list string) : result Z :=
  match l with
  | [] => Raise ValueError
  | y :: l' =>
      if String.eqb y x then Ok 0 else i <- list_index x l' ;; Ok (i + 1)
  end.

Definition avg_key (gs : string * GenreStat) : F := to_float (average (snd gs)).

(** Lines 129-131: the set of the target's [k] best genres. *)
Definition target_top_genres_of (target_prefs : UserPreferences) (k : Z)
  : list string :=
  map fst (slice_to (sorted_desc avg_key target_prefs) k).

Definition in_set (g : string) (s : list string) : bool :=
  existsb (String.eqb g) s.

(** Lines 141-149: one (genre, stats) item of one similar user. *)
Definition score_item (top : list string) (similar_users : list string)
    (user : string) (genre_scores : dict F) (item : string * GenreStat)
  : result (dict F) :=
  if in_set (fst item) top then Ok genre_scores
  else
    i <- list_index user similar_users ;;
    q <- int_truediv i (Z.of_nat (List.length similar_users)) ;;
    let similarity_weight := fsub (f_of_Z 1) q in
    let old := dict_get_default (fst item) genre_scores (f_of_Z 0) in
    Ok (dict_set (fst item)
          (fadd old (fmul (to_float (average (snd item))) similarity_weight))
          genre_scores).

(** Lines 136-149: one similar user. *)
Definition score_user (prefs : Preferences) (top : list string)
    (similar_users : list string) (genre_scores : dict F) (user : string)
  : result (dict F) :=
  match dict_get user prefs with
  | None => Ok genre_scores
  | Some user_prefs =>
      for_each (score_item top similar_users user) user_prefs genre_scores
  end.

(** Lines 134-149: the score table. *)
Definition genre_scores_of (prefs : Preferences) (top : list string)
    (similar_users : list string) : result (dict F) :=
  for_each (score_user prefs top similar_users) similar_users [].

(** Lines 152-159. *)
Definition best_genre (genre_scores : dict F) : option string :=
  match genre_scores with
  | [] => None
  | _ :: _ =>
      match sorted_desc snd genre_scores with
      | best :: _ => Some (fst best)
      | [] => None
      end
  end.

Definition find_next_best_genre (target_user : string)
    (user_genre_preferences : Preferences) (similar_users : list string)
    (k : Z) : result (option string) :=
  if is_empty similar_users
     || negb (dict_mem target_user user_genre_preferences)
  then Ok None
  else
    let target_prefs :=
      dict_get_default target_user user_genre_preferences [] in
    let top := target_top_genres_of target_prefs k in
    genre_scores <- genre_scores_of user_genre_preferences top similar_users ;;
    Ok (best_genre genre_scores).

End Program.

Arguments pynum F : clear implicits.
Arguments Row F : clear implicits.
Arguments DataFrame F : clear implicits.
Arguments GenreStat F : clear implicits.
Arguments UserPreferences F : clear implicits.
Arguments Preferences F : clear implicits.

(** ** A concrete runtime *)

Definition is_blank (c : ascii) : bool :=
  match nat_of_ascii c with
  | 9%nat | 10%nat | 12%nat | 13%nat | 32%nat => true
  | _ => false
  end.

Definition is_quote (c : ascii) : bool :=
  Ascii.eqb c "'" || Ascii.eqb c (ascii_of_nat 34).

(** Characters this reader does not accept inside a string constant: the
    backslash, a line break and the null character. *)
Definition ends_constant (c : ascii) : bool :=
  match nat_of_ascii c with
  | 0%nat | 10%nat | 13%nat | 92%nat => true
  | _ => false
  end.

Fixpoint skip_blanks (s : string) : string :=
  match s with
  | String c s' => if is_blank c then skip_blanks s' else s
  | EmptyString => s
  end.

(** The body of a string constant opened by the quote [q], and what
    follows its closing quote. *)
Fixpoint read_quoted (q : ascii) (s : string) : option (string * string) :=
  match s with
  | EmptyString => None
  | String c s' =>
      if Ascii.eqb c q then Some (EmptyString, s')
      else if ends_constant c then None
      else
        match read_quoted q s' with
        | Some (body, rest) => Some (String c body, rest)
        | None => None
        end
  end.

Definition at_end (s : string) : bool :=
  match skip_blanks s with
  | EmptyString => true
  | String _ _ => false
  end.

(** The items of a list display, read from just after its opening bracket
    or after a comma. *)
Fixpoint read_items (fuel : nat) (s : string) : option (list string) :=
  match fuel with
  | O => None
  | S fuel' =>
      match skip_blanks s with
      | EmptyString => None
      | String c rest =>
          if Ascii.eqb c "]" then if at_end rest then Some [] else None
          else if is_quote c then
            match read_quoted c rest with
            | None => None
            | Some (body, rest') =>
                match skip_blanks rest' with
                | EmptyString => None
                | String d rest'' =>
                    if Ascii.eqb d "," then
                      option_map (cons body) (read_items fuel' rest'')
                    else if Ascii.eqb d "]" then
                      if at_end rest'' then Some [body] else None
                    else None
                end
            end
          else None
      end
  end.

(** [ast.literal_eval] on the fragment of Python's literal syntax that genre
    cells use: a bracketed, comma-separated list of string constants in
    single or double quotes, without backslashes.  On this fragment, and on
    text that is no Python expression, it agrees with Python.  Any other
    literal Python accepts (numbers, nested displays, escapes, prefixed or
    adjacent string constants) is outside the fragment: the reader answers
    [LitError] there, which is not Python's answer, so the examples use it
    on cells of the fragment only, and no general statement rests on it. *)
Definition py_literal_eval (s : string) : literal_result :=
  match skip_blanks s with
  | String c rest =>
      if Ascii.eqb c "[" then
        match read_items (S (String.length rest)) rest with
        | Some items => LitList items
        | None => LitError
        end
      else LitError
  | EmptyString => LitError
  end.

(** One iteration order of a set: by first insertion. *)
Fixpoint dedup (seen l : list string) : list string :=
  match l with
  | [] => []
  | x :: l' =>
      if existsb (String.eqb x) seen then dedup seen l'
      else x :: dedup (x :: seen) l'
  end.

#[export] Instance py_runtime : Runtime := {
  literal_eval := py_literal_eval;
  set_order := dedup []
}.

(** ** Vocabulary of the specification *)

Section Vocabulary.
Context {F : Type} {FA : FloatArith F} {RT : Runtime}.

(** The statistics stored for a (user, genre) pair, if any. *)
Definition stats_at (prefs : Preferences F) (user g : string)
  : option (GenreStat F) :=
  match dict_get user prefs with
  | Some user_prefs => dict_get g user_prefs
  | None => None
  end.

(** The ratings a list of user cells holds for [user], in column order. *)
Definition cell_ratings (user : string) (ucs : list (string * option (pynum F)))
  : list (pynum F) :=
  flat_map (fun uc =>
              match snd uc with
              | Some rating =>
                  if String.eqb (fst uc) user && negb (isna (snd uc))
                  then [rating] else []
              | None => []
              end) ucs.

(** The ratings one row contributes to the pair ([user], [g]). *)
Definition row_ratings (cols : list string) (row : Row F) (user g : string)
  : list (pynum F) :=
  match genre row with
  | None => []
  | Some raw =>
      if String.eqb raw "" then []
      else
        match effective_genre raw with
        | Ok g' => if String.eqb g' g then cell_ratings user (user_cells cols row)
                   else []
        | Raise _ => []
        end
  end.

(** All ratings contributed to ([user], [g]), in table order. *)
Definition contributions (cols : list string) (rs : list (Row F))
    (user g : string) : list (pynum F) :=
  flat_map (fun row => row_ratings cols row user g) rs.

Definition sum_ratings (ratings : list (pynum F)) : pynum F :=
  fold_left py_add ratings (PyInt 0).

(** The entry that a list of contributed ratings must produce: their sum,
    their number, and the quotient of the two. *)
Definition stats_entry (ratings : list (pynum F)) : GenreStat F :=
  let n := Z.of_nat (List.length ratings) in
  {| total := sum_ratings ratings;
     average := PyFloat (fdiv (to_float (sum_ratings ratings)) (f_of_Z n));
     count := n |}.

(** No entry exists before the first rating. *)
Definition stats_of (ratings : list (pynum F)) : option (GenreStat F) :=
  match ratings with
  | [] => None
  | _ :: _ => Some (stats_entry ratings)
  end.

(** A row whose genre cell is a list literal that parses to the empty list. *)
Definition row_raises (row : Row F) : bool :=
  match genre row with
  | None => false
  | Some raw =>
      negb (String.eqb raw "")
      && match effective_genre raw with
         | Ok _ => false
         | Raise _ => true
         end
  end.

Definition is_int (v : pynum F) : bool :=
  match v with
  | PyInt _ => true
  | PyFloat _ => false
  end.

Definition int_value (v : pynum F) : Z :=
  match v with
  | PyInt z => z
  | PyFloat _ => 0
  end.



End Vocabulary.

(** ** Vocabulary of the ranker *)

Section RankerVocabulary.
Context {F : Type} {FA : FloatArith F} {RT : Runtime}.

(** The candidates: every user of the mapping but the target. *)
Definition other_users (target_user : string) (prefs : Preferences F)
  : list string :=
  filter (fun u => negb (String.eqb u target_user)) (keys prefs).

(** The similarity vector of a user of the mapping (empty preferences for a
    user the mapping does not have). *)
Definition vector_in (prefs : Preferences F) (user : string) : list F :=
  vector_of (all_genres_of prefs) (dict_get_default user prefs []).

(** The table [similarities] of [find_similar_users]. *)
Definition similarity_table (target_user : string) (prefs : Preferences F)
  : dict F :=
  similarities_of target_user (vector_in prefs target_user)
    (user_vectors_of prefs).

(** The similarity [find_similar_users] stores for [user], if any. *)
Definition similarity_to (target_user : string) (prefs : Preferences F)
    (user : string) : option F :=
  dict_get user (similarity_table target_user prefs).

End RankerVocabulary.

(** ** Vocabulary of the recommender *)

Section RecommenderVocabulary.
Context {F : Type} {FA : FloatArith F} {RT : Runtime}.

(** The zero-based position of the first occurrence of [user]. *)
Fixpoint index_of (user : string) (l : list string) : Z :=
  match l with
  | [] => 0
  | y :: l' => if String.eqb y user then 0 else index_of user l' + 1
  end.

(** [1 - index / len], both taken in the whole list of similar users. *)
Definition weight_of (similar_users : list string) (user : string) : F :=
  fsub (f_of_Z 1)
       (fdiv (f_of_Z (index_of user similar_users))
             (f_of_Z (Z.of_nat (List.length similar_users)))).

(** The term one (genre, stats) item adds to the score of [g]: its weighted
    average, when the item is for [g] and [g] is not an excluded genre. *)
Definition item_terms (top : list string) (weight : F) (g : string)
    (item : string * GenreStat F) : list F :=
  if negb (in_set (fst item) top) && String.eqb (fst item) g
  then [fmul (to_float (average (snd item))) weight]
  else [].

(** The terms one occurrence of [user] in the list adds to the score of
    [g]; nothing for a user the mapping does not have. *)
Definition user_terms (prefs : Preferences F) (top : list string)
    (similar_users : list string) (g : string) (user : string) : list F :=
  match dict_get user prefs with
  | None => []
  | Some user_prefs =>
      flat_map (item_terms top (weight_of similar_users user) g) user_prefs
  end.

(** All terms of the score of [g], in the order the loops visit them. *)
Definition score_terms (prefs : Preferences F) (top : list string)
    (similar_users : list string) (g : string) : list F :=
  flat_map (user_terms prefs top similar_users g) similar_users.

(** The running sum of a non-empty list of terms, from [0.0]. *)
Definition running_sum (terms : list F) : option F :=
  match terms with
  | [] => None
  | _ :: _ => Some (fold_left fadd terms (f_of_Z 0))
  end.

(** A score table holds, for each genre, the running sum of [h g]. *)
Definition scores_match (scores : dict F) (h : string -> list F) : Prop :=
  NoDup (keys scores) /\ forall g, dict_get g scores = running_sum (h g).

(** [<] is a strict weak order on the listed values: asymmetric, and
    anything below [c] is below [b] or has [b] below [c].  It holds in
    binary64 as soon as none of the values is NaN; it is what makes the
    outcome of [sorted] independent of the sorting algorithm. *)
Definition strict_weak_on (vals : list F) : bool :=
  forallb (fun a =>
    forallb (fun b =>
      (negb (fltb a b) || negb (fltb b a))
      && forallb (fun c => negb (fltb a c) || fltb a b || fltb b c) vals)
      vals) vals.

End RecommenderVocabulary.

Section OrderVocabulary.
Context {F : Type} {FA : FloatArith F} {A : Type}.
Variable key : A -> F.

(** [a] does not come after [b] in descending order. *)
Definition not_below (a b : A) : Prop := fltb (key a) (key b) = false.

(** [strict_weak_on], as a proposition about the elements of a list. *)
Definition weak_order_on (l : list A) : Prop :=
  (forall a b, In a l -> In b l ->
     fltb (key a) (key b) = true -> fltb (key b) (key a) = false)
  /\ (forall a b c, In a l -> In b l -> In c l ->
        fltb (key a) (key c) = true ->
        fltb (key a) (key b) = true \/ fltb (key b) (key c) = true).

End OrderVocabulary.

(** A well-formed preference mapping: distinct users, and distinct genres
    for each user. *)
Definition well_formed {F : Type} (prefs : Preferences F) : Prop :=
  NoDup (keys prefs)
  /\ forall user user_prefs,
       dict_get user prefs = Some user_prefs -> NoDup (keys user_prefs).

(** ** The order of binary64 values *)

(** A rank of the floats that are not NaN, ordered lexicographically as [<]
    orders them. *)
Definition sf_key (f : spec_float) : Z * (Z * Z) :=
  match f with
  | S754_zero _ => (0, (0, 0))
  | S754_infinity false => (2, (0, 0))
  | S754_infinity true => (-2, (0, 0))
  | S754_nan => (0, (0, 0))
  | S754_finite false m e => (1, (e, Zpos m))
  | S754_finite true m e => (-1, (- e, - Zpos m))
  end.

Definition lex_lt (a b : Z * (Z * Z)) : Prop :=
  fst a < fst b
  \/ (fst a = fst b
      /\ (fst (snd a) < fst (snd b)
          \/ (fst (snd a) = fst (snd b) /\ snd (snd a) < snd (snd b)))).

(** ** Example tables *)

(** The end-to-end scenario of the specification. *)

Definition int_cell (z : Z) : option (pynum float) := Some (PyInt z).

Definition scenario_df : DataFrame float :=
  {| columns := ["user_A"; "user_B"];
     rows := [ {| genre := Some "Rock"; cells := [int_cell 5; int_cell 3] |};
               {| genre := Some "Pop"; cells := [int_cell 2; int_cell 4] |} ] |}.

Definition stat_of_int (t : Z) (avg : float) (c : Z) : GenreStat float :=
  {| total := PyInt t; average := PyFloat avg; count := c |}.

Definition scenario_prefs : Preferences float :=
  [ ("user_A", [("Rock", stat_of_int 5 5.0 1); ("Pop", stat_of_int 2 2.0 1)]);
    ("user_B", [("Rock", stat_of_int 3 3.0 1); ("Pop", stat_of_int 4 4.0 1)]) ].

Definition float_cell (x : float) : option (pynum float) := Some (PyFloat x).

Definition rock_row (x : float) : Row float :=
  {| genre := Some "Rock"; cells := [float_cell x] |}.

(** Three ratings of one user for one genre, and the same rows reversed. *)
Definition tenths_df : DataFrame float :=
  {| columns := ["user_A"];
     rows := [rock_row 0.1; rock_row 0.2; rock_row 0.3] |}.

Definition tenths_reversed_df : DataFrame float :=
  {| columns := ["user_A"];
     rows := [rock_row 0.3; rock_row 0.2; rock_row 0.1] |}.


(** The entry of user_A for Rock in the outcome of a run, for examples. *)
Definition stats_at_result (r : result (Preferences float))
  : option (GenreStat float) :=
  match r with
  | Ok prefs => stats_at prefs "user_A" "Rock"
  | Raise _ => None
  end.


(** A table with a single row and a single rating of 4 by user_A. *)
Definition one_row_df (genre_cell : string) : DataFrame float :=
  {| columns := ["user_A"];
     rows := [ {| genre := Some genre_cell; cells := [int_cell 4] |} ] |}.

Definition one_genre_prefs (g : string) : Preferences float :=
  [ ("user_A", [(g, stat_of_int 4 4.0 1)]) ].

(** Two users who give one Rock song the same tiny rating. *)
Definition tiny_df : DataFrame float :=
  {| columns := ["user_A"; "user_B"];
     rows := [ {| genre := Some "Rock";
                  cells := [float_cell 1e-200; float_cell 1e-200] |} ] |}.

Definition tiny_stat : GenreStat float :=
  {| total := PyFloat 1e-200%float; average := PyFloat 1e-200%float; count := 1 |}.

Definition tiny_prefs : Preferences float :=
  [ ("user_A", [("Rock", tiny_stat)]); ("user_B", [("Rock", tiny_stat)]) ].

(** Two users who give one Rock song the same huge rating. *)
Definition huge_df : DataFrame float :=
  {| columns := ["user_A"; "user_B"];
     rows := [ {| genre := Some "Rock";
                  cells := [float_cell 1e200; float_cell 1e200] |} ] |}.

Definition huge_stat : GenreStat float :=
  {| total := PyFloat 1e200%float; average := PyFloat 1e200%float; count := 1 |}.

Definition huge_prefs : Preferences float :=
  [ ("user_A", [("Rock", huge_stat)]); ("user_B", [("Rock", huge_stat)]) ].

(** [|x - y| <= tol] in binary64. *)
Definition close_to (tol x y : float) : bool :=
  PrimFloat.leb (PrimFloat.abs (PrimFloat.sub x y)) tol.

(** ** Binary64 values as real numbers *)

(** The real number a binary64 value stands for ([0] for the infinities and
    NaN, which stand for none). *)
Definition sf_value (f : spec_float) : R :=
  match f with
  | S754_finite s m e =>
      let magnitude :=
        match e with
        | Z0 => IZR (Zpos m)
        | Zpos p => IZR (Zpos m * Z.pow_pos 2 p)
        | Zneg p => (IZR (Zpos m) / IZR (Z.pow_pos 2 p))%R
        end in
      if s then (- magnitude)%R else magnitude
  | _ => 0%R
  end.

Definition float_value (x : float) : R := sf_value (Prim2SF x).

(** Half the distance from 1 to the next binary64 number. *)
Definition unit_roundoff : R := (/ IZR (2 ^ 53))%R.

(** [computed] is [exact] up to the relative error [u]: what rounding to
    nearest gives with [u = unit_roundoff] when the result neither
    overflows nor falls in the subnormal range. *)
Definition rounded_within (u computed exact : R) : Prop :=
  (Rabs (computed - exact) <= u * Rabs exact)%R.

Section SimilarityVocabulary.
Context {F : Type} {FA : FloatArith F}.

(** Lines 101-104 on the three numbers they read: the dot product and the
    two norms, however [np.dot] rounded them. *)
Definition cosine_of (dot_product norm_target norm_user : F) : F :=
  if feqb norm_target (f_of_Z 0) || feqb norm_user (f_of_Z 0) then f_of_Z 0
  else fdiv dot_product (fmul norm_target norm_user).

End SimilarityVocabulary.

(** ** Vocabulary of the further properties *)

Section FurtherVocabulary.
Context {F : Type} {FA : FloatArith F} {RT : Runtime}.

(** The test of line 18, negated: the genre cell is a non-empty string. *)
Definition has_genre (row : Row F) : bool :=
  match genre row with
  | Some raw => negb (String.eqb raw "")
  | None => false
  end.

(** Every user of the mapping has at least one genre. *)
Definition users_nonempty (prefs : Preferences F) : Prop :=
  forall u up, dict_get u prefs = Some up -> up <> [].


(** The similarity table sorted and cut, as line 109 leaves it. *)
Definition ranked (target_user : string) (prefs : Preferences F) (n : Z)
  : list (string * F) :=
  slice_to (sorted_desc snd (similarity_table target_user prefs)) n.

(** The set of genres line 131 excludes for the target. *)
Definition excluded_genres (target_user : string) (prefs : Preferences F)
    (k : Z) : list string :=
  target_top_genres_of (dict_get_default target_user prefs []) k.

End FurtherVocabulary.

(** A frame with no user column, one with users who tie, and a mapping whose
    target has only zero averages. *)
Definition no_user_df : DataFrame float :=
  {| columns := ["title"; "year"];
     rows := [ {| genre := Some "Rock"; cells := [int_cell 1; int_cell 1999] |} ] |}.

Definition zero_target_prefs : Preferences float :=
  [ ("user_A", [("Rock", stat_of_int 0 0.0 1)]);
    ("user_B", [("Rock", stat_of_int 3 3.0 1)]);
    ("user_C", [("Pop", stat_of_int 4 4.0 1)]) ].

(** Three users with one genre each, for the weights of the recommender. *)
Definition one_genre_each_prefs : Preferences float :=
  [ ("user_A", [("Rock", stat_of_int 5 5.0 1)]);
    ("user_B", [("Pop", stat_of_int 3 3.0 1)]);
    ("user_C", [("Jazz", stat_of_int 7 7.0 1)]) ].

(** Four users with small integer averages, whose dot products are exact
    however they are summed: user_C is closest to user_A, then user_B, then
    user_D. *)
Definition four_users_prefs : Preferences float :=
  [ ("user_A", [("Rock", stat_of_int 5 5.0 1); ("Pop", stat_of_int 2 2.0 1)]);
    ("user_B", [("Rock", stat_of_int 1 1.0 1); ("Pop", stat_of_int 5 5.0 1)]);
    ("user_C", [("Rock", stat_of_int 4 4.0 1); ("Pop", stat_of_int 2 2.0 1)]);
    ("user_D", [("Pop", stat_of_int 1 1.0 1)]) ].

(** * The aggregator on every outcome of the literal parser *)

(** [Runtime] and [effective_genre] above cover the genre cells that
    [ast.literal_eval] reads as a list of strings or as another value, or
    rejects with an exception line 30 catches.  The parser has two more
    outcomes: it can raise a [TypeError], a [MemoryError] or a
    [RecursionError], which line 30 lets through, and it can return a list
    whose first item is not a string.  [General] restates lines 16-48 with
    every outcome; on the runtimes above the two agree ([general_agrees]). *)

Module General.

(** An item of a parsed list, as far as line 43 can tell items apart: a
    string, another value that can be the key of a dictionary (a number,
    a tuple of numbers, [None]), or a value that cannot (a list, a set, a
    dictionary). *)
Inductive list_item (K : Type) : Type :=
| ItemStr (s : string)
| ItemKey (k : K)
| ItemUnhashable.

Arguments ItemStr {K} s.
Arguments ItemKey {K} k.
Arguments ItemUnhashable {K}.

(** What [ast.literal_eval] does with a genre cell. *)
Inductive literal_outcome (K : Type) : Type :=
| ListValue (items : list (list_item K))
| OtherValue
| Raises (e : exn).

Arguments ListValue {K} items.
Arguments OtherValue {K}.
Arguments Raises {K} e.

(** The parser, with the values other than strings that it can put in a
    list and that can be keys, and their equality as keys. *)
Class Runtime : Type := {
  other_key : Type;
  other_key_eqb : other_key -> other_key -> bool;
  literal_eval : string -> literal_outcome other_key
}.

(** The key a genre is filed under: a string, or one of the other values;
    a string is never equal to one of those. *)
Inductive genre_key (K : Type) : Type :=
| StrKey (s : string)
| OtherKey (k : K).

Arguments StrKey {K} s.
Arguments OtherKey {K} k.

(** The value of the variable [genre] after line 32. *)
Inductive genre_value (K : Type) : Type :=
| Hashable (k : genre_key K)
| Unhashable.

Arguments Hashable {K} k.
Arguments Unhashable {K}.

Section Aggregator.
Context {F : Type} {FA : FloatArith F} {RT : Runtime}.

Definition key_eqb (a b : genre_key other_key) : bool :=
  match a, b with
  | StrKey x, StrKey y => String.eqb x y
  | OtherKey x, OtherKey y => other_key_eqb x y
  | _, _ => false
  end.

Definition UserPreferences : Type := list (genre_key other_key * GenreStat F).
Definition Preferences : Type := dict UserPreferences.

Fixpoint genre_get (k : genre_key other_key) (d : UserPreferences)
  : option (GenreStat F) :=
  match d with
  | [] => None
  | (k', v) :: d' => if key_eqb k k' then Some v else genre_get k d'
  end.

Fixpoint genre_set (k : genre_key other_key) (v : GenreStat F)
    (d : UserPreferences) : UserPreferences :=
  match d with
  | [] => [(k, v)]
  | (k', v') :: d' =>
      if key_eqb k k' then (k', v) :: d' else (k', v') :: genre_set k v d'
  end.

Definition genre_of_item (item : list_item other_key) : genre_value other_key :=
  match item with
  | ItemStr s => Hashable (StrKey s)
  | ItemKey k => Hashable (OtherKey k)
  | ItemUnhashable => Unhashable
  end.

(** Lines 22-32. *)
Definition effective_genre (g : string) : result (genre_value other_key) :=
  if startswith "[" g && endswith "]" g then
    match literal_eval g with
    | ListValue items =>
        match items with
        | first :: _ => Ok (genre_of_item first)
        | [] => Raise IndexError
        end
    | OtherValue => Ok (Hashable (StrKey g))
    | Raises e =>
        if caught_at_line_30 e then Ok (Hashable (StrKey g)) else Raise e
    end
  else Ok (Hashable (StrKey g)).

(** Lines 43-46 for one user column.  Line 43 looks [genre] up in the
    user's dictionary, which raises [TypeError] for a value that cannot be
    a key. *)
Definition record_rating (g : genre_value other_key) (prefs : Preferences)
    (user : string) (rating : pynum F) : result Preferences :=
  let user_prefs := dict_get_default user prefs [] in
  match g with
  | Unhashable => Raise TypeError
  | Hashable k =>
      let current_stats :=
        match genre_get k user_prefs with
        | Some st => st
        | None => new_stats
        end in
      st <- update_stats current_stats rating ;;
      Ok (dict_set user (genre_set k st user_prefs) prefs)
  end.

Definition rate_cell (g : genre_value other_key) (prefs : Preferences)
    (uc : string * option (pynum F)) : result Preferences :=
  if isna (snd uc) then Ok prefs
  else
    match snd uc with
    | Some rating => record_rating g prefs (fst uc) rating
    | None => Ok prefs
    end.

(** The body of the loop over rows (lines 17-46). *)
Definition process_row (cols : list string) (prefs : Preferences) (row : Row F)
  : result Preferences :=
  match genre row with
  | None => Ok prefs
  | Some raw =>
      if String.eqb raw "" then Ok prefs
      else
        g <- effective_genre raw ;;
        for_each (rate_cell g) (user_cells cols row) prefs
  end.

Definition calculate_rows (cols : list string) (rs : list (Row F))
  : result Preferences :=
  for_each (process_row cols) rs [].

Definition calculate_genre_preferences (songs_df : DataFrame F)
  : result Preferences :=
  calculate_rows (columns songs_df) (rows songs_df).

End Aggregator.

Arguments UserPreferences F {RT}.
Arguments Preferences F {RT}.

End General.

(** A runtime of the first kind as a runtime of the general kind: its lists
    hold strings only and its errors are caught. *)
Definition widen (RT : Runtime) : General.Runtime := {|
  General.other_key := Empty_set;
  General.other_key_eqb := fun _ _ => false;
  General.literal_eval := fun s =>
    match literal_eval s with
    | LitList items => General.ListValue (map General.ItemStr items)
    | LitOther => General.OtherValue
    | LitError => General.Raises ValueError
    end
|}.


Section GeneralVocabulary.
Context {F : Type} {FA : FloatArith F} {RT : General.Runtime}.

Definition widen_user (up : UserPreferences F) : General.UserPreferences F :=
  map (fun gs => (General.StrKey (fst gs), snd gs)) up.

Definition widen_prefs (prefs : Preferences F) : General.Preferences F :=
  map (fun kv => (fst kv, widen_user (snd kv))) prefs.

(** The exception lines 22-32 raise on a row, if any. *)
Definition genre_exception (row : Row F) : option exn :=
  match genre row with
  | None => None
  | Some raw =>
      if String.eqb raw "" then None
      else
        match General.effective_genre raw with
        | Raise e => Some e
        | Ok _ => None
        end
  end.




(** The exception of the first row that raises one. *)
Fixpoint first_exception (f : Row F -> option exn) (rs : list (Row F))
  : option exn :=
  match rs with
  | [] => None
  | row :: rs' =>
      match f row with
      | Some e => Some e
      | None => first_exception f rs'
      end
  end.


End GeneralVocabulary.

(** Python's answers on the cells of the examples, with ints as the other
    keys; the reader above on every other cell. *)
Definition example_literal_eval (s : string) : General.literal_outcome Z :=
  if String.eqb s "[{[]}]" then General.Raises TypeError
  else if String.eqb s "[['a']]" then General.ListValue [General.ItemUnhashable]
  else if String.eqb s "[1, 2]"
       then General.ListValue [General.ItemKey 1; General.ItemKey 2]
  else
    match py_literal_eval s with
    | LitList items => General.ListValue (map General.ItemStr items)
    | LitOther => General.OtherValue
    | LitError => General.Raises ValueError
    end.

Definition example_runtime : General.Runtime := {|
  General.other_key := Z;
  General.other_key_eqb := Z.eqb;
  General.literal_eval := example_literal_eval
|}.


(** Frames with no user column, one row per genre cell. *)
Definition no_user_rows (genre_cells : list string) : DataFrame float :=
  {| columns := ["title"; "year"];
     rows := map (fun g => {| genre := Some g;
                              cells := [int_cell 1; int_cell 1999] |})
                 genre_cells |}.

Section AgreementVocabulary.
Context {F : Type} {RT : Runtime}.

(** The outcome of the first aggregator, read as one of the general one. *)
Definition widen_result (r : result (Preferences F))
  : result (General.Preferences F (RT := widen RT)) :=
  match r with
  | Ok prefs => Ok (widen_prefs prefs)
  | Raise e => Raise e
  end.

End AgreementVocabulary.

(** Three ratings of one user whose sum overflows in one order only. *)
Definition extremes_df : DataFrame float :=
  {| columns := ["user_A"];
     rows := [rock_row 1e308; rock_row 1e308; rock_row (-1e308)] |}.

Definition extremes_permuted_df : DataFrame float :=
  {| columns := ["user_A"];
     rows := [rock_row 1e308; rock_row (-1e308); rock_row 1e308] |}.

(** Two rows that raise different exceptions, in both orders. *)
Definition two_faults_df : DataFrame float :=
  {| columns := ["user_A"];
     rows := [ {| genre := Some "[]"; cells := [int_cell 4] |};
               {| genre := Some "[{[]}]"; cells := [int_cell 4] |} ] |}.

Definition two_faults_permuted_df : DataFrame float :=
  {| columns := ["user_A"];
     rows := [ {| genre := Some "[{[]}]"; cells := [int_cell 4] |};
               {| genre := Some "[]"; cells := [int_cell 4] |} ] |}.

(** * Supporting lemmas *)

(** ** Dictionaries *)

Section DictFacts.
Context {V : Type}.
Implicit Types (d : dict V) (k : string) (v : V).

Lemma dict_get_set_same k v d : dict_get k (dict_set k v d) = Some v.
Proof.
  induction d as [|[k' v'] d IH]; simpl.
  - now rewrite String.eqb_refl.
  - destruct (String.eqb k k') eqn:E; simpl.
    + now rewrite String.eqb_refl.
    + now rewrite E.
Qed.

Lemma dict_get_set_other k k' v d :
  k' <> k -> dict_get k' (dict_set k v d) = dict_get k' d.
Proof.
  intros Hne. apply String.eqb_neq in Hne.
  induction d as [|[k0 v0] d IH]; simpl.
  - now rewrite Hne.
  - destruct (String.eqb k k0) eqn:E; simpl.
    + apply String.eqb_eq in E. subst k0. now rewrite Hne.
    + now rewrite IH.
Qed.

Lemma dict_get_set k k' v d :
  dict_get k' (dict_set k v d) = if String.eqb k' k then Some v else dict_get k' d.
Proof.
  destruct (String.eqb k' k) eqn:E.
  - apply String.eqb_eq in E. subst. apply dict_get_set_same.
  - apply String.eqb_neq in E. now apply dict_get_set_other.
Qed.

Lemma dict_get_In k d : In k (keys d) <-> dict_get k d <> None.
Proof.
  induction d as [|[k' v'] d IH]; simpl.
  - tauto.
  - destruct (String.eqb k k') eqn:E.
    + apply String.eqb_eq in E. subst. split; [discriminate | auto].
    + apply String.eqb_neq in E. rewrite <- IH. split.
      * intros [H | H]; [congruence | exact H].
      * auto.
Qed.

Lemma dict_mem_In k d : dict_mem k d = true <-> In k (keys d).
Proof.
  unfold dict_mem. rewrite dict_get_In.
  destruct (dict_get k d); split; congruence.
Qed.

Lemma keys_dict_set_In k k' v d :
  In k' (keys (dict_set k v d)) <-> k' = k \/ In k' (keys d).
Proof.
  rewrite !dict_get_In, dict_get_set.
  destruct (String.eqb k' k) eqn:E.
  - apply String.eqb_eq in E. split; [auto | discriminate].
  - apply String.eqb_neq in E. tauto.
Qed.

Lemma NoDup_keys_dict_set k v d : NoDup (keys d) -> NoDup (keys (dict_set k v d)).
Proof.
  induction d as [|[k' v'] d IH]; simpl; intros Hnd.
  - constructor; [intros [] | constructor].
  - inversion Hnd as [|? ? Hni Hnd']; subst.
    destruct (String.eqb k k') eqn:E; simpl.
    + apply String.eqb_eq in E. subst. now constructor.
    + apply String.eqb_neq in E. constructor; [|now apply IH].
      change (~ In k' (keys (dict_set k v d))).
      rewrite keys_dict_set_In. intros [H | H]; [congruence | exact (Hni H)].
Qed.

End DictFacts.

(** ** The loop combinator *)

Lemma for_each_app {A S : Type} (body : S -> A -> result S) (l1 l2 : list A) (s : S) :
  for_each body (l1 ++ l2) s = (s' <- for_each body l1 s ;; for_each body l2 s').
Proof.
  revert s. induction l1 as [|a l1 IH]; intros s; simpl.
  - reflexivity.
  - destruct (body s a); simpl; [apply IH | reflexivity].
Qed.

(** ** The aggregator *)

Section AggregatorFacts.
Context {F : Type} {FA : FloatArith F} {RT : Runtime}.
Implicit Types (p : Preferences F) (r : pynum F) (l : list (pynum F)).

Lemma effective_genre_raises raw e :
  effective_genre raw = Raise e -> e = IndexError.
Proof.
  unfold effective_genre.
  destruct (startswith "[" raw && endswith "]" raw); [|discriminate].
  destruct (literal_eval raw) as [[|first items]| |]; try discriminate.
  now intros [= <-].
Qed.

Lemma stats_at_empty user g : stats_at ([] : Preferences F) user g = None.
Proof. reflexivity. Qed.

Lemma stats_at_set p u g st u' g' :
  stats_at (dict_set u (dict_set g st (dict_get_default u p [])) p) u' g'
  = if String.eqb u' u && String.eqb g' g then Some st else stats_at p u' g'.
Proof.
  unfold stats_at. rewrite dict_get_set.
  destruct (String.eqb u' u) eqn:Eu; simpl; [|reflexivity].
  apply String.eqb_eq in Eu. subst u'.
  rewrite dict_get_set. destruct (String.eqb g' g); [reflexivity|].
  unfold dict_get_default. now destruct (dict_get u p).
Qed.

Lemma current_stats_default p u g :
  dict_get_default g (dict_get_default u p []) new_stats
  = match stats_at p u g with Some st => st | None => new_stats end.
Proof.
  unfold dict_get_default, stats_at. now destruct (dict_get u p).
Qed.

Lemma sum_ratings_snoc l r : sum_ratings (l ++ [r]) = py_add (sum_ratings l) r.
Proof. unfold sum_ratings. now rewrite fold_left_app. Qed.

Lemma stats_of_snoc l r : stats_of (l ++ [r]) = Some (stats_entry (l ++ [r])).
Proof. now destruct l. Qed.

(** One more rating turns the entry of [l] into the entry of [l ++ [r]];
    the division cannot fail because the new count is positive. *)
Lemma update_stats_entry l r :
  update_stats (match stats_of l with Some st => st | None => new_stats end) r
  = Ok (stats_entry (l ++ [r])).
Proof.
  assert (Hc : (Z.of_nat (List.length l) + 1 =? 0) = false) by (apply Z.eqb_neq; lia).
  assert (Hn : Z.of_nat (List.length (l ++ [r])) = Z.of_nat (List.length l) + 1)
    by (rewrite length_app; simpl; lia).
  unfold update_stats, stats_entry, py_truediv.
  rewrite Hn, sum_ratings_snoc.
  destruct l as [|a l]; [reflexivity|].
  cbn [stats_of stats_entry total count].
  rewrite Hc. reflexivity.
Qed.

Lemma record_rating_spec p u g r l :
  stats_at p u g = stats_of l ->
  exists p',
    record_rating g p u r = Ok p'
    /\ forall u' g',
         stats_at p' u' g'
         = if String.eqb u' u && String.eqb g' g then stats_of (l ++ [r])
           else stats_at p u' g'.
Proof.
  intros Hl. unfold record_rating.
  rewrite current_stats_default, Hl, update_stats_entry. simpl.
  eexists. split; [reflexivity|].
  intros u' g'. now rewrite stats_at_set, stats_of_snoc.
Qed.

(** The loop over the user columns of one row never raises, and appends the
    row's ratings to the history of each pair it touches. *)
Lemma rate_cells_spec g ucs :
  forall p (h : string -> string -> list (pynum F)),
    (forall u g', stats_at p u g' = stats_of (h u g')) ->
    exists p',
      for_each (rate_cell g) ucs p = Ok p'
      /\ forall u g',
           stats_at p' u g'
           = stats_of (h u g' ++ if String.eqb g' g then cell_ratings u ucs else []).
Proof.
  induction ucs as [|[c cell] ucs IH]; intros p h Hinv.
  - exists p. split; [reflexivity|].
    intros u g'. rewrite Hinv. simpl. destruct (String.eqb g' g); now rewrite app_nil_r.
  - cbn [for_each]. unfold rate_cell at 1. cbn [fst snd].
    destruct cell as [r|].
    + destruct (isna (Some r)) eqn:Ena.
      * cbn [bind]. destruct (IH p h Hinv) as (p' & Hrun & Hp').
        exists p'. split; [exact Hrun|].
        intros u g'. rewrite Hp'. unfold cell_ratings. cbn [flat_map fst snd].
        rewrite Ena, andb_false_r. reflexivity.
      * destruct (record_rating_spec p c g r (h c g) (Hinv c g)) as (p1 & Hrec & Hp1).
        rewrite Hrec. cbn [bind].
        set (h1 := fun u g' =>
                     h u g' ++ if String.eqb u c && String.eqb g' g then [r] else []).
        assert (Hinv1 : forall u g', stats_at p1 u g' = stats_of (h1 u g')).
        { intros u g'. rewrite Hp1. unfold h1.
          destruct (String.eqb u c && String.eqb g' g) eqn:E.
          - apply andb_true_iff in E. destruct E as [Eu Eg].
            apply String.eqb_eq in Eu, Eg. now subst.
          - now rewrite app_nil_r. }
        destruct (IH p1 h1 Hinv1) as (p' & Hrun & Hp').
        exists p'. split; [exact Hrun|].
        intros u g'. rewrite Hp'. f_equal. unfold h1, cell_ratings.
        cbn [flat_map fst snd]. rewrite Ena. cbn [negb]. rewrite andb_true_r.
        rewrite (String.eqb_sym c u), <- app_assoc.
        destruct (String.eqb u c), (String.eqb g' g); reflexivity.
    + cbn [isna bind]. destruct (IH p h Hinv) as (p' & Hrun & Hp').
      exists p'. split; [exact Hrun|].
      intros u g'. rewrite Hp'. reflexivity.
Qed.

(** One row: it raises [IndexError] exactly when its genre cell is a list
    literal that parses to the empty list; otherwise it appends its ratings
    to the histories. *)
Lemma process_row_spec cols row p (h : string -> string -> list (pynum F)) :
  (forall u g, stats_at p u g = stats_of (h u g)) ->
  if row_raises row then process_row cols p row = Raise IndexError
  else exists p',
      process_row cols p row = Ok p'
      /\ forall u g, stats_at p' u g = stats_of (h u g ++ row_ratings cols row u g).
Proof.
  intros Hinv. unfold row_raises, process_row, row_ratings.
  destruct (genre row) as [raw|].
  - destruct (String.eqb raw ""); cbn [negb andb].
    + exists p. split; [reflexivity|]. intros u g. now rewrite app_nil_r.
    + destruct (effective_genre raw) as [g|e] eqn:Eg.
      * cbn [bind].
        destruct (rate_cells_spec g (user_cells cols row) p h Hinv) as (p' & Hrun & Hp').
        exists p'. split; [exact Hrun|]. intros u g'. rewrite Hp'.
        now rewrite (String.eqb_sym g g').
      * apply effective_genre_raises in Eg. now subst.
  - exists p. split; [reflexivity|]. intros u g. now rewrite app_nil_r.
Qed.

Lemma rows_spec cols rs :
  forall p (h : string -> string -> list (pynum F)),
    (forall u g, stats_at p u g = stats_of (h u g)) ->
    if existsb row_raises rs then for_each (process_row cols) rs p = Raise IndexError
    else exists p',
        for_each (process_row cols) rs p = Ok p'
        /\ forall u g, stats_at p' u g = stats_of (h u g ++ contributions cols rs u g).
Proof.
  induction rs as [|row rs IH]; intros p h Hinv.
  - exists p. split; [reflexivity|]. intros u g. simpl. now rewrite app_nil_r.
  - cbn [existsb for_each].
    pose proof (process_row_spec cols row p h Hinv) as Hrow.
    destruct (row_raises row); cbn [orb].
    + now rewrite Hrow.
    + destruct Hrow as (p1 & Hrun1 & Hp1). rewrite Hrun1. cbn [bind].
      specialize (IH p1 (fun u g => h u g ++ row_ratings cols row u g) Hp1).
      destruct (existsb row_raises rs); [exact IH|].
      destruct IH as (p' & Hrun & Hp'). exists p'. split; [exact Hrun|].
      intros u g. rewrite Hp'. unfold contributions. cbn [flat_map].
      now rewrite app_assoc.
Qed.

(** The outcome of the aggregator, in full: it raises [IndexError] when some
    row does, and otherwise returns preferences whose entries are exactly
    those the contributed ratings determine. *)
Lemma calculate_rows_spec cols rs :
  if existsb row_raises rs then calculate_rows cols rs = Raise IndexError
  else exists p,
      calculate_rows cols rs = Ok p
      /\ forall u g, stats_at p u g = stats_of (contributions cols rs u g).
Proof.
  pose proof (rows_spec cols rs [] (fun _ _ => []) (fun u g => eq_refl)) as H.
  unfold calculate_rows. destruct (existsb row_raises rs); exact H.
Qed.

Lemma calculate_rows_ok cols rs p :
  calculate_rows cols rs = Ok p ->
  existsb row_raises rs = false
  /\ forall u g, stats_at p u g = stats_of (contributions cols rs u g).
Proof.
  intros Hrun. pose proof (calculate_rows_spec cols rs) as H.
  destruct (existsb row_raises rs); [congruence|].
  destruct H as (p' & Hrun' & Hp'). split; [reflexivity|].
  assert (p = p') by congruence. now subst.
Qed.

Lemma for_each_preserves {A S : Type} (P : S -> Prop) (body : S -> A -> result S)
    (l : list A) :
  (forall s a s', P s -> body s a = Ok s' -> P s') ->
  forall s s', P s -> for_each body l s = Ok s' -> P s'.
Proof.
  intros Hbody. induction l as [|a l IH]; intros s s' Hs Hrun; cbn [for_each] in Hrun.
  - now injection Hrun as <-.
  - destruct (body s a) as [s1|e] eqn:E; [|discriminate]. cbn [bind] in Hrun.
    apply (IH s1 s'); [now apply (Hbody s a) | exact Hrun].
Qed.

Lemma record_rating_well_formed g p u r p' :
  well_formed p -> record_rating g p u r = Ok p' -> well_formed p'.
Proof.
  intros [Hnd Hsub] Hrec. unfold record_rating in Hrec.
  destruct (update_stats _ r) as [st|e]; [|discriminate].
  cbn [bind] in Hrec. injection Hrec as <-. split.
  - now apply NoDup_keys_dict_set.
  - intros user user_prefs. rewrite dict_get_set.
    destruct (String.eqb user u); [|apply Hsub].
    intros [= <-]. apply NoDup_keys_dict_set.
    unfold dict_get_default. destruct (dict_get u p) eqn:E; [|constructor].
    now apply (Hsub u).
Qed.

(** What the aggregator returns is a well-formed mapping. *)
Lemma calculate_rows_well_formed cols rs p :
  calculate_rows cols rs = Ok p -> well_formed p.
Proof.
  unfold calculate_rows.
  apply (for_each_preserves well_formed (process_row cols)).
  - intros s row s' Hs. unfold process_row.
    destruct (genre row) as [raw|]; [|now intros [= <-]].
    destruct (String.eqb raw ""); [now intros [= <-]|].
    destruct (effective_genre raw) as [g|e]; [|discriminate]. cbn [bind].
    apply (for_each_preserves well_formed (rate_cell g)); [|exact Hs].
    intros s1 uc s2 Hs1. unfold rate_cell.
    destruct (isna (snd uc)); [now intros [= <-]|].
    destruct (snd uc) as [rating|]; [|now intros [= <-]].
    now apply record_rating_well_formed.
  - split; [constructor | discriminate].
Qed.

End AggregatorFacts.

(** ** Row order *)

Section RowOrder.
Context {F : Type} {FA : FloatArith F} {RT : Runtime}.

Lemma contributions_perm cols (rs rs' : list (Row F)) u g :
  Permutation rs rs' ->
  Permutation (contributions cols rs u g) (contributions cols rs' u g).
Proof. intros H. unfold contributions. now rewrite H. Qed.

Lemma existsb_perm {A : Type} (f : A -> bool) (l l' : list A) :
  Permutation l l' -> existsb f l = existsb f l'.
Proof.
  intros H. induction H; simpl.
  - reflexivity.
  - now rewrite IHPermutation.
  - destruct (f x), (f y); reflexivity.
  - congruence.
Qed.



Lemma int_sum_perm (l l' : list (pynum F)) :
  Permutation l l' ->
  fold_right Z.add 0 (map int_value l) = fold_right Z.add 0 (map int_value l').
Proof. intros H. induction H; simpl; lia. Qed.





End RowOrder.

(** ** Row order in exact arithmetic *)

Section IdealRowOrder.
Context {RT : Runtime}.
Local Open Scope R_scope.
Local Abbreviation addR := (py_add (FA := ideal_reals)).
Local Abbreviation valR := (to_float (FA := ideal_reals)).

Lemma fold_py_add_ideal (l : list (pynum R)) :
  forall a,
    fold_left addR l a
    = if forallb is_int l && is_int a
      then PyInt (int_value a + fold_right Z.add 0%Z (map int_value l))
      else PyFloat (valR a + fold_right Rplus 0 (map valR l)).
Proof.
  induction l as [|x l IH]; intros a; cbn [fold_left forallb map fold_right].
  - destruct a as [z|r]; cbn [is_int andb int_value to_float]; f_equal; [lia | lra].
  - rewrite IH. destruct a as [za|ra], x as [zx|rx];
      cbn [py_add is_int andb int_value to_float f_of_Z fadd ideal_reals];
      rewrite ?andb_false_r; cbn [andb].
    + destruct (forallb is_int l); cbn [andb]; f_equal; [lia|].
      rewrite plus_IZR. lra.
    + f_equal. lra.
    + f_equal. lra.
    + f_equal. lra.
Qed.

Lemma real_sum_perm (l l' : list (pynum R)) :
  Permutation l l' ->
  fold_right Rplus 0 (map valR l) = fold_right Rplus 0 (map valR l').
Proof. intros H. induction H; cbn [map fold_right]; lra. Qed.

Lemma forallb_perm {A : Type} (f : A -> bool) (l l' : list A) :
  Permutation l l' -> forallb f l = forallb f l'.
Proof.
  intros H. induction H; cbn [forallb].
  - reflexivity.
  - now rewrite IHPermutation.
  - destruct (f x), (f y); reflexivity.
  - congruence.
Qed.

Lemma stats_of_perm_ideal (l l' : list (pynum R)) :
  Permutation l l' ->
  stats_of (FA := ideal_reals) l = stats_of (FA := ideal_reals) l'.
Proof.
  intros H. pose proof (Permutation_length H) as Hlen.
  destruct l as [|a l], l' as [|a' l']; try discriminate; [reflexivity|].
  unfold stats_of, stats_entry, sum_ratings.
  rewrite !fold_py_add_ideal, Hlen, (forallb_perm _ _ _ H),
    (int_sum_perm _ _ H), (real_sum_perm _ _ H).
  reflexivity.
Qed.

(** Over the reals the order of the rows does not matter at all. *)
Lemma permuted_rows_same_stats_ideal (df df' : DataFrame R) :
  columns df' = columns df ->
  Permutation (rows df) (rows df') ->
  match calculate_genre_preferences (FA := ideal_reals) df,
        calculate_genre_preferences (FA := ideal_reals) df' with
  | Ok prefs, Ok prefs' =>
      forall user g, stats_at prefs user g = stats_at prefs' user g
  | Raise e, Raise e' => e = e'
  | _, _ => False
  end.
Proof.
  intros Hcols Hperm. unfold calculate_genre_preferences. rewrite Hcols.
  pose proof (calculate_rows_spec (FA := ideal_reals) (columns df) (rows df)) as H.
  pose proof (calculate_rows_spec (FA := ideal_reals) (columns df) (rows df')) as H'.
  rewrite <- (existsb_perm row_raises _ _ Hperm) in H'.
  destruct (existsb row_raises (rows df)).
  - now rewrite H, H'.
  - destruct H as (p & -> & Hp), H' as (p' & -> & Hp').
    intros user g. rewrite Hp, Hp'.
    apply stats_of_perm_ideal.
    now apply (contributions_perm (FA := ideal_reals)).
Qed.

End IdealRowOrder.

(** ** Building a dictionary entry by entry *)

Lemma dict_set_fresh {V : Type} (k : string) (v : V) (d : dict V) :
  ~ In k (keys d) -> dict_set k v d = d ++ [(k, v)].
Proof.
  induction d as [|[k' v'] d IH]; simpl; intros Hni; [reflexivity|].
  destruct (String.eqb k k') eqn:E.
  - apply String.eqb_eq in E. subst. tauto.
  - rewrite IH; [reflexivity | tauto].
Qed.

(** Filling a dictionary from a list with distinct fresh keys, skipping some
    elements, lists the kept elements in order. *)
Lemma fold_dict_set {A V : Type} (key : A -> string) (val : A -> V)
    (skip : A -> bool) (l : list A) :
  NoDup (map key l) ->
  forall acc : dict V,
    (forall a, In a l -> ~ In (key a) (keys acc)) ->
    fold_left (fun d a => if skip a then d else dict_set (key a) (val a) d) l acc
    = acc ++ map (fun a => (key a, val a)) (filter (fun a => negb (skip a)) l).
Proof.
  induction l as [|a l IH]; simpl; intros Hnd acc Hfresh.
  - now rewrite app_nil_r.
  - inversion Hnd as [|? ? Hni Hnd']; subst.
    destruct (skip a); cbn [negb].
    + apply IH; [exact Hnd'|]. intros b Hb. apply Hfresh. now right.
    + rewrite dict_set_fresh by (apply Hfresh; now left).
      rewrite IH; [cbn [map]; now rewrite <- app_assoc | exact Hnd' |].
      intros b Hb. unfold keys. rewrite map_app, in_app_iff. cbn [map fst In].
      intros [H | [H | []]].
      * apply (Hfresh b); [now right | exact H].
      * apply Hni. rewrite H. now apply in_map.
Qed.

(** ** Sorting *)

Section SortingFacts.
Context {F : Type} {FA : FloatArith F} {A : Type}.
Variable key : A -> F.

Lemma insert_desc_perm (x : A) (l : list A) :
  Permutation (insert_desc key x l) (x :: l).
Proof.
  induction l as [|y l IH]; simpl; [reflexivity|].
  destruct (fltb (key x) (key y)); [|reflexivity].
  rewrite IH. apply perm_swap.
Qed.

Lemma sorted_desc_perm (l : list A) : Permutation (sorted_desc key l) l.
Proof.
  induction l as [|x l IH]; simpl; [reflexivity|].
  rewrite insert_desc_perm. now constructor.
Qed.

Lemma sorted_desc_length (l : list A) :
  List.length (sorted_desc key l) = List.length l.
Proof. apply Permutation_length, sorted_desc_perm. Qed.

Lemma sorted_desc_In (x : A) (l : list A) : In x (sorted_desc key l) <-> In x l.
Proof.
  split; apply Permutation_in;
    [apply sorted_desc_perm | apply Permutation_sym, sorted_desc_perm].
Qed.

End SortingFacts.

Lemma slice_to_nonneg {A : Type} (l : list A) (n : Z) :
  0 <= n -> slice_to l n = firstn (Z.to_nat n) l.
Proof. intros H. unfold slice_to. now apply Z.leb_le in H as ->. Qed.

Lemma In_firstn {A : Type} (m : nat) (l : list A) (x : A) :
  In x (firstn m l) -> In x l.
Proof.
  intros H. rewrite <- (firstn_skipn m l). apply in_or_app. now left.
Qed.

Lemma slice_to_incl {A : Type} (l : list A) (n : Z) (x : A) :
  In x (slice_to l n) -> In x l.
Proof. unfold slice_to. destruct (0 <=? n); apply In_firstn. Qed.

(** ** The ranker *)

Section RankerFacts.
Context {F : Type} {FA : FloatArith F} {RT : Runtime}.
Implicit Types (prefs : Preferences F) (target u : string).

Lemma dict_get_map_values {V W : Type} (f : V -> W) (k : string) (d : dict V) :
  dict_get k (map (fun kv => (fst kv, f (snd kv))) d) = option_map f (dict_get k d).
Proof.
  induction d as [|[k' v] d IH]; simpl; [reflexivity|].
  now destruct (String.eqb k k').
Qed.

Lemma dict_get_map_others {V W : Type} (f : V -> W) target k (d : dict V) :
  dict_get k (map (fun kv => (fst kv, f (snd kv)))
                (filter (fun kv => negb (String.eqb (fst kv) target)) d))
  = if String.eqb k target then None else option_map f (dict_get k d).
Proof.
  induction d as [|[k' v] d IH]; simpl.
  - now destruct (String.eqb k target).
  - destruct (String.eqb k' target) eqn:Et; simpl; rewrite IH.
    + apply String.eqb_eq in Et. subst k'.
      now destruct (String.eqb k target).
    + destruct (String.eqb k k') eqn:Ek; [|reflexivity].
      apply String.eqb_eq in Ek. subst k'. now rewrite Et.
Qed.

(** With distinct users, the vector table lists the users in order. *)
Lemma user_vectors_structure prefs :
  NoDup (keys prefs) ->
  user_vectors_of prefs
  = map (fun up => (fst up, vector_of (all_genres_of prefs) (snd up))) prefs.
Proof.
  intros Hnd. unfold user_vectors_of.
  pose proof (fold_dict_set (V := list F) fst
                (fun up : string * UserPreferences F =>
                   vector_of (all_genres_of prefs) (snd up))
                (fun _ => false) prefs Hnd [] (fun _ _ H => H)) as H.
  cbv beta iota in H. rewrite H. cbn [app negb]. now rewrite filter_true.
Qed.

(** ... and the similarity table lists everyone but the target, in order. *)
Lemma similarities_structure prefs target (tv : list F) :
  NoDup (keys prefs) ->
  similarities_of target tv (user_vectors_of prefs)
  = map (fun up => (fst up,
                    cosine_sim tv (vector_of (all_genres_of prefs) (snd up))))
        (filter (fun up => negb (String.eqb (fst up) target)) prefs).
Proof.
  intros Hnd. rewrite (user_vectors_structure prefs Hnd).
  unfold similarities_of.
  set (g := fun up : string * UserPreferences F =>
              (fst up, vector_of (all_genres_of prefs) (snd up))).
  assert (Hkeys : map fst (map g prefs) = keys prefs).
  { rewrite map_map. reflexivity. }
  rewrite (fold_dict_set fst (fun uv => cosine_sim tv (snd uv))
             (fun uv => String.eqb (fst uv) target) (map g prefs)).
  - cbn [app]. rewrite filter_map_swap, map_map. reflexivity.
  - now rewrite Hkeys.
  - intros a _ [].
Qed.

Lemma keys_similarities prefs target (tv : list F) :
  NoDup (keys prefs) ->
  keys (similarities_of target tv (user_vectors_of prefs)) = other_users target prefs.
Proof.
  intros Hnd. rewrite (similarities_structure _ _ _ Hnd).
  unfold other_users, keys. rewrite map_map. cbn [fst].
  now rewrite filter_map_swap.
Qed.

Lemma target_vector_found prefs target :
  NoDup (keys prefs) -> dict_mem target prefs = true ->
  dict_get target (user_vectors_of prefs) = Some (vector_in prefs target).
Proof.
  intros Hnd Hmem. rewrite (user_vectors_structure _ Hnd).
  rewrite (dict_get_map_values (vector_of (all_genres_of prefs))).
  unfold vector_in, dict_get_default. unfold dict_mem in Hmem.
  now destruct (dict_get target prefs).
Qed.

(** The ranking, unfolded: the keys of the sorted similarity table, cut. *)
Lemma find_similar_users_unfold prefs target n :
  NoDup (keys prefs) -> dict_mem target prefs = true ->
  find_similar_users target prefs n
  = map fst (slice_to (sorted_desc snd (similarity_table target prefs)) n).
Proof.
  intros Hnd Hmem. unfold find_similar_users.
  rewrite Hmem, (target_vector_found _ _ Hnd Hmem). reflexivity.
Qed.

Lemma similarity_to_other prefs target u :
  NoDup (keys prefs) ->
  similarity_to target prefs u
  = if String.eqb u target then None
    else option_map (fun up => cosine_sim (vector_in prefs target)
                                 (vector_of (all_genres_of prefs) up))
                    (dict_get u prefs).
Proof.
  intros Hnd. unfold similarity_to, similarity_table.
  rewrite (similarities_structure _ _ _ Hnd).
  apply (dict_get_map_others
           (fun up => cosine_sim (vector_in prefs target)
                        (vector_of (all_genres_of prefs) up))).
Qed.

End RankerFacts.

(** ** Cosine similarity in binary64 *)

Section Binary64Facts.
Import FloatAxioms.

(** IEEE equality with zero leaves the two signed zeros. *)
Lemma float_eqb_zero (x : float) :
  PrimFloat.eqb x 0 = true -> x = 0%float \/ x = (-0)%float.
Proof.
  rewrite eqb_spec. change (Prim2SF 0) with (S754_zero false).
  intros H. rewrite <- (SF2Prim_Prim2SF x).
  destruct (Prim2SF x) as [s| s| |s m e]; try discriminate.
  - destruct s; [right | left]; reflexivity.
  - destruct s; discriminate.
  - destruct s; discriminate.
Qed.

Lemma dot_zero_vector (z : list float) :
  Forall (fun x => PrimFloat.eqb x 0 = true) z -> dot z z = 0%float.
Proof.
  unfold dot. cbn [fdot binary64]. unfold sum_of_products.
  change (float_of_Z 0) with 0%float.
  induction 1 as [|x z Hx _ IH]; [reflexivity|].
  cbn [combine fold_left fst snd].
  replace (PrimFloat.add 0%float (PrimFloat.mul x x)) with 0%float; [exact IH|].
  destruct (float_eqb_zero x Hx) as [-> | ->]; reflexivity.
Qed.

Lemma norm_zero_vector (z : list float) :
  Forall (fun x => PrimFloat.eqb x 0 = true) z -> norm z = 0%float.
Proof. intros H. unfold norm. now rewrite (dot_zero_vector z H). Qed.

End Binary64Facts.

(** ** Cosine similarity over the reals *)

Section IdealFacts.
Local Open Scope R_scope.
Local Abbreviation dotR := (dot (FA := ideal_reals)).
Local Abbreviation normR := (norm (FA := ideal_reals)).
Local Abbreviation cosR := (cosine_sim (FA := ideal_reals)).

Lemma sum_squares_from (v : list R) (a : R) :
  a <= fold_left (fun acc ab => acc + fst ab * snd ab) (combine v v) a
  /\ (Exists (fun x => x <> 0) v ->
      a < fold_left (fun acc ab => acc + fst ab * snd ab) (combine v v) a).
Proof.
  revert a. induction v as [|x v IH]; intros a; cbn [combine fold_left fst snd].
  - split; [lra|]. intros H. inversion H.
  - destruct (IH (a + x * x)) as [Hle Hlt]. split.
    + pose proof (Rle_0_sqr x) as Hx. unfold Rsqr in Hx. lra.
    + intros H. inversion H as [? ? Hx | ? ? Hv]; subst.
      * assert (0 < x * x) by (apply Rsqr_pos_lt in Hx; exact Hx). lra.
      * specialize (Hlt Hv). pose proof (Rle_0_sqr x) as Hx. unfold Rsqr in Hx. lra.
Qed.

Lemma dot_self_pos (v : list R) : Exists (fun x => x <> 0) v -> 0 < dotR v v.
Proof. intros H. apply (sum_squares_from v 0). exact H. Qed.

Lemma cosine_self_ideal (v : list R) :
  Exists (fun x => x <> 0) v -> cosR v v = 1.
Proof.
  intros H. pose proof (dot_self_pos v H) as Hpos.
  unfold cosR, cosine_sim. fold (norm (FA := ideal_reals) v).
  unfold norm. fold (dotR v v). cbn [f_of_Z fsqrt feqb fdiv fmul ideal_reals].
  assert (Hs : sqrt (dotR v v) <> 0).
  { intros E. apply sqrt_eq_0 in E; lra. }
  destruct (Req_dec_T (sqrt (dotR v v)) 0) as [E | _]; [contradiction|].
  cbn [orb]. rewrite sqrt_sqrt by lra. field. lra.
Qed.

Lemma cosine_zero_ideal (v z : list R) :
  Forall (fun x => x = 0) z -> cosR v z = 0 /\ cosR z v = 0.
Proof.
  intros Hz.
  assert (Hdot : dotR z z = 0).
  { unfold dotR, dot. cbn [fdot ideal_reals]. unfold sum_of_products.
    induction Hz as [|x z Hx _ IH]; [reflexivity|].
    cbn [combine fold_left fst snd]. subst x.
    replace (0 + 0 * 0) with 0 by lra. exact IH. }
  assert (Hnorm : feqb (FloatArith := ideal_reals) (normR z) 0 = true).
  { unfold normR, norm. fold (dotR z z). rewrite Hdot.
    cbn [feqb fsqrt ideal_reals]. rewrite sqrt_0.
    destruct (Req_dec_T 0 0); [reflexivity | contradiction]. }
  unfold cosR, cosine_sim. fold (normR z). change (f_of_Z 0) with 0.
  rewrite Hnorm. split; [now rewrite orb_true_r | reflexivity].
Qed.

End IdealFacts.

(** ** Floats without NaN are totally preordered *)

Section Binary64Order.
Import FloatAxioms.

Lemma SFltb_lex (a b : spec_float) :
  a <> S754_nan -> b <> S754_nan ->
  (SFltb a b = true <-> lex_lt (sf_key a) (sf_key b)).
Proof.
  intros Ha Hb. unfold SFltb, lex_lt.
  destruct a as [sa|sa| |sa ma ea], b as [sb|sb| |sb mb eb]; try congruence;
    try destruct sa; try destruct sb; cbn [SFcompare sf_key fst snd];
    try (split; [discriminate | lia]); try (split; [lia | reflexivity]).
  - change (Pos.compare_cont Eq ma mb) with (Pos.compare ma mb).
    destruct (Z.compare_spec ea eb), (Pos.compare_spec ma mb); cbn [CompOpp];
      split; intros; try discriminate; try reflexivity; lia.
  - change (Pos.compare_cont Eq ma mb) with (Pos.compare ma mb).
    destruct (Z.compare_spec ea eb), (Pos.compare_spec ma mb);
      split; intros; try discriminate; try reflexivity; lia.
Qed.

Lemma not_nan_spec (x : float) : PrimFloat.is_nan x = false -> Prim2SF x <> S754_nan.
Proof.
  unfold PrimFloat.is_nan. rewrite eqb_spec. intros H E. rewrite E in H.
  discriminate H.
Qed.

Lemma ltb_lex (x y : float) :
  PrimFloat.is_nan x = false -> PrimFloat.is_nan y = false ->
  (PrimFloat.ltb x y = true <-> lex_lt (sf_key (Prim2SF x)) (sf_key (Prim2SF y))).
Proof.
  intros Hx Hy. rewrite ltb_spec.
  apply SFltb_lex; now apply not_nan_spec.
Qed.

(** In binary64, [<] is a strict weak order on any values without NaN. *)
Lemma binary64_strict_weak (vals : list float) :
  forallb (fun x => negb (PrimFloat.is_nan x)) vals = true ->
  strict_weak_on vals = true.
Proof.
  intros Hnan. rewrite forallb_forall in Hnan.
  assert (Hn : forall x, In x vals -> PrimFloat.is_nan x = false).
  { intros x Hx. apply negb_true_iff. now apply Hnan. }
  unfold strict_weak_on. apply forallb_forall. intros a Ha.
  apply forallb_forall. intros b Hb.
  pose proof (ltb_lex a b (Hn a Ha) (Hn b Hb)) as Hab.
  pose proof (ltb_lex b a (Hn b Hb) (Hn a Ha)) as Hba.
  change (@fltb float binary64) with PrimFloat.ltb.
  apply andb_true_iff. split.
  - destruct (PrimFloat.ltb a b); [|reflexivity].
    destruct (PrimFloat.ltb b a); [|reflexivity].
    exfalso. destruct Hab as [Hab _], Hba as [Hba _].
    specialize (Hab eq_refl). specialize (Hba eq_refl).
    unfold lex_lt in *. lia.
  - apply forallb_forall. intros c Hc.
    pose proof (ltb_lex a c (Hn a Ha) (Hn c Hc)) as Hac.
    pose proof (ltb_lex b c (Hn b Hb) (Hn c Hc)) as Hbc.
    destruct (PrimFloat.ltb a c); [|reflexivity]. cbn [negb orb].
    destruct Hac as [Hac _]. specialize (Hac eq_refl).
    destruct (PrimFloat.ltb a b); [reflexivity|]. cbn [orb].
    destruct (PrimFloat.ltb b c); [reflexivity|].
    exfalso.
    assert (Hnab : ~ lex_lt (sf_key (Prim2SF a)) (sf_key (Prim2SF b)))
      by (intros H; apply Hab in H; discriminate H).
    assert (Hnbc : ~ lex_lt (sf_key (Prim2SF b)) (sf_key (Prim2SF c)))
      by (intros H; apply Hbc in H; discriminate H).
    unfold lex_lt in *. lia.
Qed.

End Binary64Order.

(** ** Sorted order *)

Section SortedFacts.
Context {F : Type} {FA : FloatArith F} {A : Type}.
Variable key : A -> F.

Lemma strict_weak_on_spec (l : list A) :
  strict_weak_on (map key l) = true -> weak_order_on key l.
Proof.
  unfold strict_weak_on. intros H. rewrite forallb_forall in H.
  assert (Hab : forall a b, In a l -> In b l ->
            (negb (fltb (key a) (key b)) || negb (fltb (key b) (key a))) = true
            /\ forall c, In c l ->
                 (negb (fltb (key a) (key c)) || fltb (key a) (key b)
                  || fltb (key b) (key c)) = true).
  { intros a b Ha Hb. specialize (H (key a) (in_map key _ _ Ha)).
    rewrite forallb_forall in H. specialize (H (key b) (in_map key _ _ Hb)).
    apply andb_true_iff in H. destruct H as [H1 H2]. split; [exact H1|].
    intros c Hc. rewrite forallb_forall in H2. exact (H2 (key c) (in_map key _ _ Hc)). }
  split.
  - intros a b Ha Hb Hlt. destruct (Hab a b Ha Hb) as [H1 _].
    rewrite Hlt in H1. cbn [negb orb] in H1. now apply negb_true_iff in H1.
  - intros a b c Ha Hb Hc Hlt. destruct (Hab a b Ha Hb) as [_ H2].
    specialize (H2 c Hc). rewrite Hlt in H2. cbn [negb orb] in H2.
    now apply orb_true_iff in H2.
Qed.

Lemma weak_order_on_incl (l l' : list A) :
  (forall x, In x l' -> In x l) -> weak_order_on key l -> weak_order_on key l'.
Proof.
  intros Hincl [Hasym Hneg]. split.
  - intros a b Ha Hb. apply Hasym; auto.
  - intros a b c Ha Hb Hc. apply Hneg; auto.
Qed.


Lemma insert_desc_sorted (x : A) (l : list A) :
  weak_order_on key (x :: l) ->
  StronglySorted (not_below key) l -> StronglySorted (not_below key) (insert_desc key x l).
Proof.
  intros Hwo Hs. induction Hs as [|y l Hs IH Hy]; cbn [insert_desc].
  - repeat constructor.
  - destruct Hwo as [Hasym Hneg].
    destruct (fltb (key x) (key y)) eqn:Exy.
    + constructor.
      * apply IH. apply (weak_order_on_incl (x :: y :: l)); [|now split].
        intros z [<- | Hz]; [now left | right; now right].
      * rewrite Forall_forall. intros z Hz.
        apply (Permutation_in _ (insert_desc_perm key x l)) in Hz.
        destruct Hz as [<- | Hz].
        -- apply Hasym; [now left | right; now left | exact Exy].
        -- rewrite Forall_forall in Hy. now apply Hy.
    + constructor; [now constructor|].
      constructor; [exact Exy|].
      rewrite Forall_forall in *. intros z Hz. unfold not_below.
      destruct (fltb (key x) (key z)) eqn:Exz; [|reflexivity].
      destruct (Hneg x y z) as [H | H];
        [now left | right; now left | right; now right | exact Exz | |].
      * congruence.
      * specialize (Hy z Hz). unfold not_below in Hy. congruence.
Qed.

Lemma sorted_desc_sorted (l : list A) :
  weak_order_on key l -> StronglySorted (not_below key) (sorted_desc key l).
Proof.
  induction l as [|x l IH]; intros Hwo; cbn [sorted_desc]; [constructor|].
  apply insert_desc_sorted.
  - apply (weak_order_on_incl (x :: l)); [|exact Hwo].
    intros z [<- | Hz]; [now left | right; exact (proj1 (sorted_desc_In key z l) Hz)].
  - apply IH. apply (weak_order_on_incl (x :: l)); [|exact Hwo]. now right.
Qed.

(** In a sorted list every element of a prefix dominates the rest. *)
Lemma sorted_prefix_dominates (l : list A) (m : nat) (a b : A) :
  StronglySorted (not_below key) l ->
  In a (firstn m l) -> In b (skipn m l) -> not_below key a b.
Proof.
  intros Hs. revert m. induction Hs as [|y l Hs IH Hy]; intros m Ha Hb.
  - rewrite firstn_nil in Ha. contradiction.
  - destruct m as [|m]; [contradiction|].
    cbn [firstn skipn] in Ha, Hb. destruct Ha as [<- | Ha].
    + rewrite Forall_forall in Hy. apply Hy.
      rewrite <- (firstn_skipn m l). apply in_or_app. now right.
    + now apply (IH m).
Qed.


End SortedFacts.

(** ** The recommender *)

Section RecommenderFacts.
Context {F : Type} {FA : FloatArith F} {RT : Runtime}.
Implicit Types (prefs : Preferences F) (scores : dict F) (similar top : list string).

(** Looking up a member of the list never raises. *)
Lemma list_index_found (u : string) (l : list string) :
  In u l -> list_index u l = Ok (index_of u l).
Proof.
  induction l as [|y l IH]; intros Hin; [contradiction|].
  cbn [list_index index_of]. destruct (String.eqb y u) eqn:E; [reflexivity|].
  apply String.eqb_neq in E. destruct Hin as [H | H]; [contradiction|].
  now rewrite (IH H).
Qed.

Lemma length_nonzero {A : Type} (x : A) (l : list A) :
  In x l -> (Z.of_nat (List.length l) =? 0) = false.
Proof.
  intros H. apply Z.eqb_neq. destruct l; [contradiction | cbn [List.length]; lia].
Qed.

(** One item, for a user of the list: no exception, and the score of the
    item's genre grows by the weighted average. *)
Lemma score_item_found top similar user scores (item : string * GenreStat F) :
  In user similar ->
  score_item top similar user scores item
  = Ok (if in_set (fst item) top then scores
        else dict_set (fst item)
               (fadd (dict_get_default (fst item) scores (f_of_Z 0))
                     (fmul (to_float (average (snd item)))
                           (weight_of similar user)))
               scores).
Proof.
  intros Hin. unfold score_item.
  destruct (in_set (fst item) top); [reflexivity|].
  rewrite (list_index_found _ _ Hin). cbn [bind]. unfold int_truediv.
  rewrite (length_nonzero _ _ Hin). reflexivity.
Qed.

Lemma running_sum_snoc (l : list F) (t : F) :
  running_sum (l ++ [t])
  = Some (fadd (match running_sum l with Some s => s | None => f_of_Z 0 end) t).
Proof.
  destruct l as [|a l]; [reflexivity|].
  cbn [running_sum app]. rewrite app_comm_cons, fold_left_app. reflexivity.
Qed.

Lemma score_items_spec top similar user (items : list (string * GenreStat F)) :
  In user similar ->
  forall scores h,
    scores_match scores h ->
    exists scores',
      for_each (score_item top similar user) items scores = Ok scores'
      /\ scores_match scores'
           (fun g => h g ++ flat_map (item_terms top (weight_of similar user) g) items).
Proof.
  intros Hin. induction items as [|item items IH]; intros scores h [Hnd Hget].
  - exists scores. split; [reflexivity|]. split; [exact Hnd|].
    intros g. cbn [flat_map]. now rewrite app_nil_r.
  - cbn [for_each]. rewrite (score_item_found _ _ _ _ _ Hin). cbn [bind].
    set (w := weight_of similar user) in *.
    set (h1 := fun g => h g ++ item_terms top w g item).
    match goal with
    | |- exists s, for_each _ _ ?s1 = _ /\ _ =>
        assert (H1 : scores_match s1 h1)
    end.
    { unfold h1, item_terms. destruct (in_set (fst item) top); cbn [negb andb].
      - split; [exact Hnd|]. intros g. now rewrite app_nil_r.
      - split; [now apply NoDup_keys_dict_set|].
        intros g. rewrite dict_get_set, (String.eqb_sym g (fst item)).
        destruct (String.eqb (fst item) g) eqn:E.
        + apply String.eqb_eq in E. subst g. rewrite running_sum_snoc.
          unfold dict_get_default. now rewrite Hget.
        + now rewrite app_nil_r. }
    destruct (IH _ _ H1) as (scores' & Hrun & Hnd' & Hget').
    exists scores'. split; [exact Hrun|]. split; [exact Hnd'|].
    intros g. rewrite Hget'. unfold h1. cbn [flat_map]. now rewrite app_assoc.
Qed.

Lemma score_users_spec prefs top similar (users : list string) :
  (forall u, In u users -> In u similar) ->
  forall scores h,
    scores_match scores h ->
    exists scores',
      for_each (score_user prefs top similar) users scores = Ok scores'
      /\ scores_match scores'
           (fun g => h g ++ flat_map (user_terms prefs top similar g) users).
Proof.
  induction users as [|u users IH]; intros Hincl scores h Hm.
  - exists scores. split; [reflexivity|]. destruct Hm as [Hnd Hget].
    split; [exact Hnd|]. intros g. cbn [flat_map]. now rewrite app_nil_r.
  - cbn [for_each]. unfold score_user at 1.
    assert (Hu : In u similar) by (apply Hincl; now left).
    assert (Hrest : forall v, In v users -> In v similar)
      by (intros v Hv; apply Hincl; now right).
    assert (Hstep : exists scores1,
               match dict_get u prefs with
               | Some user_prefs =>
                   for_each (score_item top similar u) user_prefs scores
               | None => Ok scores
               end = Ok scores1
               /\ scores_match scores1
                    (fun g => h g ++ user_terms prefs top similar g u)).
    { unfold user_terms. destruct (dict_get u prefs) as [user_prefs|].
      - now apply score_items_spec.
      - exists scores. split; [reflexivity|]. destruct Hm as [Hnd Hget].
        split; [exact Hnd|]. intros g. now rewrite app_nil_r. }
    destruct Hstep as (scores1 & -> & H1). cbn [bind].
    destruct (IH Hrest _ _ H1) as (scores' & Hrun & Hnd' & Hget').
    exists scores'. split; [exact Hrun|]. split; [exact Hnd'|].
    intros g. rewrite Hget'. cbn [flat_map]. now rewrite app_assoc.
Qed.

(** The score table, in full: the loops never raise, and each genre's score
    is the running sum of its terms. *)
Lemma genre_scores_spec prefs top similar :
  exists scores,
    genre_scores_of prefs top similar = Ok scores
    /\ NoDup (keys scores)
    /\ forall g, dict_get g scores = running_sum (score_terms prefs top similar g).
Proof.
  destruct (score_users_spec prefs top similar similar (fun u H => H) []
              (fun _ => [])) as (scores & Hrun & Hnd & Hget).
  - split; [constructor | reflexivity].
  - exists scores. split; [exact Hrun|]. split; [exact Hnd|]. exact Hget.
Qed.

Lemma for_each_ext {A S : Type} (f g : S -> A -> result S) (l : list A) :
  (forall s a, f s a = g s a) -> forall s, for_each f l s = for_each g l s.
Proof.
  intros Hfg. induction l as [|a l IH]; intros s; cbn [for_each]; [reflexivity|].
  rewrite Hfg. destruct (g s a); cbn [bind]; [apply IH | reflexivity].
Qed.

Lemma dict_get_app {V : Type} (k : string) (d d' : dict V) :
  dict_get k (d ++ d')
  = match dict_get k d with Some v => Some v | None => dict_get k d' end.
Proof.
  induction d as [|[k' v] d IH]; cbn [app dict_get]; [reflexivity|].
  now destruct (String.eqb k k').
Qed.

(** A user the mapping lacks behaves like a user with no preferences. *)
Lemma score_user_absent prefs top similar ghost scores u :
  dict_mem ghost prefs = false ->
  score_user (prefs ++ [(ghost, [])]) top similar scores u
  = score_user prefs top similar scores u.
Proof.
  intros Hghost. unfold score_user. rewrite dict_get_app.
  destruct (dict_get u prefs); [reflexivity|].
  cbn [dict_get]. now destruct (String.eqb u ghost).
Qed.

Lemma user_terms_absent prefs top similar g u :
  dict_mem u prefs = false -> user_terms prefs top similar g u = [].
Proof.
  unfold dict_mem, user_terms. now destruct (dict_get u prefs).
Qed.

Lemma flat_map_filter_nil {A B : Type} (f : A -> list B) (p : A -> bool) (l : list A) :
  (forall a, p a = false -> f a = []) ->
  flat_map f (filter p l) = flat_map f l.
Proof.
  intros H. induction l as [|a l IH]; cbn [filter flat_map]; [reflexivity|].
  destruct (p a) eqn:E; cbn [flat_map]; rewrite IH; [reflexivity|].
  now rewrite (H a E).
Qed.




Lemma dict_get_In_pair {V : Type} (k : string) (v : V) (d : dict V) :
  NoDup (keys d) -> dict_get k d = Some v -> In (k, v) d.
Proof.
  induction d as [|[k' v'] d IH]; cbn [dict_get keys map fst]; [discriminate|].
  intros Hnd. inversion Hnd; subst.
  destruct (String.eqb k k') eqn:E.
  - apply String.eqb_eq in E. subst. intros [= ->]. now left.
  - intros H. right. now apply IH.
Qed.

Lemma In_pair_dict_get {V : Type} (k : string) (v : V) (d : dict V) :
  NoDup (keys d) -> In (k, v) d -> dict_get k d = Some v.
Proof.
  induction d as [|[k' v'] d IH]; cbn [dict_get keys map fst]; [contradiction|].
  intros Hnd. inversion Hnd as [|? ? Hni Hnd']; subst.
  intros [[= -> ->] | Hin].
  - now rewrite String.eqb_refl.
  - destruct (String.eqb k k') eqn:E; [|now apply IH].
    apply String.eqb_eq in E. subst k'. exfalso. apply Hni.
    change (In (fst (k, v)) (map fst d)). now apply in_map.
Qed.

Lemma slice_to_firstn {A : Type} (l : list A) (n : Z) :
  exists m, slice_to l n = firstn m l.
Proof. unfold slice_to. destruct (0 <=? n); eexists; reflexivity. Qed.

End RecommenderFacts.

(** ** Rounding errors of the similarity of a vector with itself *)

Section ToleranceFacts.
Local Open Scope R_scope.

Lemma float_value_nonzero (x : float) :
  float_value x <> 0 -> PrimFloat.eqb x 0 = false.
Proof.
  intros H. rewrite FloatAxioms.eqb_spec. unfold float_value in H.
  change (Prim2SF 0) with (S754_zero false).
  destruct (Prim2SF x) as [s|s| |s m e]; cbn [sf_value] in H;
    try (now elim H).
  destruct s; reflexivity.
Qed.

Lemma rounded_within_bounds (u c e : R) :
  0 <= e -> rounded_within u c e -> (1 - u) * e <= c <= (1 + u) * e.
Proof.
  unfold rounded_within. intros He H. rewrite (Rabs_pos_eq e He) in H.
  revert H. unfold Rabs at 1. destruct (Rcase_abs (c - e)); lra.
Qed.

Lemma square_between (a b x : R) :
  0 <= a -> a <= x <= b -> a * a <= x * x <= b * b.
Proof.
  intros Ha [Hax Hxb]. split; apply Rmult_le_compat; lra.
Qed.

(** A root, a product and a quotient, each within [u] of its exact value,
    leave [D / (sqrt D * sqrt D)] within [8 u] of 1. *)
Lemma self_similarity_tolerance (u D S P Q : R) :
  0 <= u <= / 16 ->
  0 < D ->
  rounded_within u S (sqrt D) ->
  rounded_within u P (S * S) ->
  rounded_within u Q (D / P) ->
  0 < S /\ 0 < P /\ Rabs (Q - 1) <= 8 * u.
Proof.
  intros Hu HD H1 H2 H3.
  assert (Hr : 0 < sqrt D) by now apply sqrt_lt_R0.
  assert (Hrr : sqrt D * sqrt D = D) by (apply sqrt_sqrt; lra).
  set (r := sqrt D) in *.
  apply rounded_within_bounds in H1; [|lra].
  assert (Hlow : 0 < (1 - u) * r) by (apply Rmult_lt_0_compat; lra).
  assert (HS : 0 < S) by lra.
  pose proof (square_between _ _ _ (Rlt_le _ _ Hlow) H1) as HSS.
  replace ((1 - u) * r * ((1 - u) * r)) with ((1 - u) * (1 - u) * D) in HSS
    by (rewrite <- Hrr; ring).
  replace ((1 + u) * r * ((1 + u) * r)) with ((1 + u) * (1 + u) * D) in HSS
    by (rewrite <- Hrr; ring).
  assert (Hc2 : 0 < (1 - u) * (1 - u) * D)
    by (repeat apply Rmult_lt_0_compat; lra).
  apply rounded_within_bounds in H2; [|lra].
  assert (HP : (1 - u) * ((1 - u) * (1 - u) * D) <= P
               <= (1 + u) * ((1 + u) * (1 + u) * D)).
  { split.
    - apply Rle_trans with ((1 - u) * (S * S)); [|lra].
      apply Rmult_le_compat_l; lra.
    - apply Rle_trans with ((1 + u) * (S * S)); [lra|].
      apply Rmult_le_compat_l; lra. }
  assert (HPpos : 0 < P).
  { apply Rlt_le_trans with ((1 - u) * ((1 - u) * (1 - u) * D)); [|lra].
    apply Rmult_lt_0_compat; lra. }
  set (y := D / P) in *.
  assert (Hy : y * P = D) by (unfold y; field; lra).
  assert (Hypos : 0 < y) by (unfold y; apply Rdiv_lt_0_compat; lra).
  apply rounded_within_bounds in H3; [|lra].
  set (lo := (1 - u) * ((1 - u) * (1 - u))) in *.
  set (hi := (1 + u) * ((1 + u) * (1 + u))) in *.
  assert (HPlo : lo * D <= P) by (unfold lo; lra).
  assert (HPhi : P <= hi * D) by (unfold hi; lra).
  assert (Hlo : 1 <= y * hi).
  { apply Rmult_le_reg_r with D; [lra|].
    replace (y * hi * D) with (y * (hi * D)) by ring.
    apply Rle_trans with (y * P); [lra|]. apply Rmult_le_compat_l; lra. }
  assert (Hhi : y * lo <= 1).
  { apply Rmult_le_reg_r with D; [lra|].
    replace (y * lo * D) with (y * (lo * D)) by ring.
    apply Rle_trans with (y * P); [|lra]. apply Rmult_le_compat_l; lra. }
  assert (Hnum1 : (1 - 8 * u) * hi <= 1 - u) by (unfold hi; nra).
  assert (Hnum2 : 1 + u <= (1 + 8 * u) * lo) by (unfold lo; nra).
  split; [exact HS|]. split; [exact HPpos|].
  apply Rabs_le. split.
  - assert ((1 - 8 * u) <= (1 - u) * y); [|lra].
    assert (Hhipos : 0 < hi) by (unfold hi; repeat apply Rmult_lt_0_compat; lra).
    apply Rmult_le_reg_r with hi; [exact Hhipos|].
    apply Rle_trans with (1 - u); [exact Hnum1|].
    replace ((1 - u) * y * hi) with ((1 - u) * (y * hi)) by ring.
    rewrite <- (Rmult_1_r (1 - u)) at 1. apply Rmult_le_compat_l; lra.
  - assert ((1 + u) * y <= 1 + 8 * u); [|lra].
    assert (Hlopos : 0 < lo) by (unfold lo; repeat apply Rmult_lt_0_compat; lra).
    apply Rmult_le_reg_r with lo; [exact Hlopos|].
    apply Rle_trans with (1 + u); [|exact Hnum2].
    replace ((1 + u) * y * lo) with ((1 + u) * (y * lo)) by ring.
    rewrite <- (Rmult_1_r (1 + u)) at 2. apply Rmult_le_compat_l; lra.
Qed.

Lemma unit_roundoff_small : 0 <= unit_roundoff <= / 16.
Proof.
  unfold unit_roundoff. change (2 ^ 53)%Z with 9007199254740992%Z. lra.
Qed.

(** In binary64: when the squared norm [d] is a positive number and the
    root, the square of the root and the quotient are each rounded within
    [unit_roundoff], the similarity of the vector with itself is the
    quotient, and within 8 [unit_roundoff] of 1. *)
Lemma self_similarity_binary64 (d : float) :
  0 < float_value d ->
  rounded_within unit_roundoff
    (float_value (PrimFloat.sqrt d)) (sqrt (float_value d)) ->
  rounded_within unit_roundoff
    (float_value (PrimFloat.mul (PrimFloat.sqrt d) (PrimFloat.sqrt d)))
    (float_value (PrimFloat.sqrt d) * float_value (PrimFloat.sqrt d)) ->
  rounded_within unit_roundoff
    (float_value (PrimFloat.div d (PrimFloat.mul (PrimFloat.sqrt d) (PrimFloat.sqrt d))))
    (float_value d
     / float_value (PrimFloat.mul (PrimFloat.sqrt d) (PrimFloat.sqrt d))) ->
  cosine_of d (PrimFloat.sqrt d) (PrimFloat.sqrt d)
  = PrimFloat.div d (PrimFloat.mul (PrimFloat.sqrt d) (PrimFloat.sqrt d))
  /\ Rabs (float_value (cosine_of d (PrimFloat.sqrt d) (PrimFloat.sqrt d)) - 1)
     <= 8 * unit_roundoff.
Proof.
  intros Hd H1 H2 H3.
  destruct (self_similarity_tolerance _ _ _ _ _ unit_roundoff_small Hd H1 H2 H3)
    as (HS & _ & Htol).
  assert (Hnz : PrimFloat.eqb (PrimFloat.sqrt d) 0 = false)
    by (apply float_value_nonzero; lra).
  assert (Heq : cosine_of d (PrimFloat.sqrt d) (PrimFloat.sqrt d)
                = PrimFloat.div d (PrimFloat.mul (PrimFloat.sqrt d) (PrimFloat.sqrt d))).
  { unfold cosine_of. change (f_of_Z 0) with 0%float.
    change (@feqb float binary64) with PrimFloat.eqb. now rewrite Hnz. }
  split; [exact Heq|]. now rewrite Heq.
Qed.

(** A root is within [u] of the exact one when its square is within the
    squared bounds. *)
Lemma sqrt_rounded_within (u S D : R) :
  0 <= u <= 1 -> 0 <= S -> 0 <= D ->
  (1 - u) * (1 - u) * D <= S * S <= (1 + u) * (1 + u) * D ->
  rounded_within u S (sqrt D).
Proof.
  intros Hu HS HD [Hlo Hhi]. unfold rounded_within.
  pose proof (sqrt_pos D) as Hr.
  assert (Hrr : sqrt D * sqrt D = D) by (apply sqrt_sqrt; lra).
  rewrite (Rabs_pos_eq (sqrt D)) by exact Hr.
  set (r := sqrt D) in *.
  apply Rabs_le. split.
  - assert ((1 - u) * r <= S); [|lra].
    apply Rsqr_incr_0_var; [|exact HS]. unfold Rsqr.
    replace ((1 - u) * r * ((1 - u) * r)) with ((1 - u) * (1 - u) * D)
      by (rewrite <- Hrr; ring).
    exact Hlo.
  - assert (S <= (1 + u) * r); [|lra].
    apply Rsqr_incr_0_var; [|apply Rmult_le_pos; lra]. unfold Rsqr.
    replace ((1 + u) * r * ((1 + u) * r)) with ((1 + u) * (1 + u) * D)
      by (rewrite <- Hrr; ring).
    exact Hhi.
Qed.

End ToleranceFacts.

(** Evaluates the [float_value]s of a goal on closed floats. *)
Ltac float_values :=
  unfold float_value, unit_roundoff;
  change (2 ^ 53)%Z with 9007199254740992%Z;
  repeat match goal with
  | |- context [Prim2SF ?x] =>
      let sf := eval vm_compute in (Prim2SF x) in
      replace (Prim2SF x) with sf by (vm_compute; reflexivity)
  end;
  cbn [sf_value];
  repeat match goal with
  | |- context [Z.pow_pos 2 ?p] =>
      let v := eval vm_compute in (Z.pow_pos 2 p) in
      change (Z.pow_pos 2 p) with v
  end.

(** ** The general aggregator *)

Section GeneralFacts.
Context {F : Type} {FA : FloatArith F} {RT : General.Runtime}.














Lemma filter_none {A : Type} (f : A -> bool) (l : list A) :
  (forall x, In x l -> f x = false) -> filter f l = [].
Proof.
  induction l as [|x l IH]; intros H; cbn [filter]; [reflexivity|].
  rewrite (H x (or_introl eq_refl)). apply IH. intros y Hy. apply H. now right.
Qed.

Lemma user_cells_no_user_column (cols : list string) (row : Row F) :
  (forall c, In c cols -> startswith "user_" c = false) ->
  user_cells cols row = [].
Proof.
  intros H. unfold user_cells. apply filter_none. intros [c v] Hin.
  cbn [fst]. apply H. exact (in_combine_l _ _ _ _ Hin).
Qed.

(** Without user columns a row does nothing but read its genre. *)
Lemma process_row_no_user_column (cols : list string)
    (prefs : General.Preferences F) (row : Row F) :
  (forall c, In c cols -> startswith "user_" c = false) ->
  General.process_row cols prefs row
  = match genre_exception row with
    | Some e => Raise e
    | None => Ok prefs
    end.
Proof.
  intros H. unfold General.process_row, genre_exception.
  rewrite (user_cells_no_user_column cols row H).
  destruct (genre row) as [raw|]; [|reflexivity].
  destruct (String.eqb raw ""); [reflexivity|].
  destruct (General.effective_genre raw); reflexivity.
Qed.

Lemma for_each_rows_no_user_column (cols : list string) (rs : list (Row F))
    (prefs : General.Preferences F) :
  (forall c, In c cols -> startswith "user_" c = false) ->
  for_each (General.process_row cols) rs prefs
  = match first_exception genre_exception rs with
    | Some e => Raise e
    | None => Ok prefs
    end.
Proof.
  intros H. induction rs as [|row rs IH]; cbn [for_each first_exception];
    [reflexivity|].
  rewrite (process_row_no_user_column cols prefs row H).
  destruct (genre_exception row); [reflexivity | exact IH].
Qed.




End GeneralFacts.

(** ** The two aggregators agree *)

Section Agreement.
Context {F : Type} {FA : FloatArith F} {RT : Runtime}.

Local Abbreviation wide := (widen RT).

Lemma effective_genre_agrees (raw : string) :
  General.effective_genre (RT := wide) raw
  = match effective_genre raw with
    | Ok g => Ok (General.Hashable (General.StrKey g))
    | Raise e => Raise e
    end.
Proof.
  unfold General.effective_genre, effective_genre.
  destruct (startswith "[" raw && endswith "]" raw); [|reflexivity].
  cbn [General.literal_eval widen].
  destruct (literal_eval raw) as [[|first rest]| |]; reflexivity.
Qed.

Lemma genre_get_widen (g : string) (up : UserPreferences F) :
  General.genre_get (RT := wide) (General.StrKey g) (widen_user up)
  = dict_get g up.
Proof.
  induction up as [|[g' st] up IH]; [reflexivity|].
  cbn [widen_user map General.genre_get dict_get fst snd General.key_eqb].
  destruct (String.eqb g g'); [reflexivity | exact IH].
Qed.

Lemma genre_set_widen (g : string) (st : GenreStat F) (up : UserPreferences F) :
  General.genre_set (RT := wide) (General.StrKey g) st (widen_user up)
  = widen_user (dict_set g st up).
Proof.
  induction up as [|[g' st'] up IH]; [reflexivity|].
  cbn [widen_user map General.genre_set dict_set fst snd General.key_eqb].
  destruct (String.eqb g g') eqn:E.
  - apply String.eqb_eq in E. now subst g'.
  - cbn [map fst snd]. f_equal. exact IH.
Qed.

Lemma dict_get_default_widen (u : string) (prefs : Preferences F) :
  dict_get_default u (widen_prefs (RT := wide) prefs) []
  = widen_user (dict_get_default u prefs []).
Proof.
  unfold dict_get_default.
  induction prefs as [|[u' up] prefs IH]; [reflexivity|].
  cbn [widen_prefs map dict_get fst snd].
  destruct (String.eqb u u'); [reflexivity | exact IH].
Qed.

Lemma dict_set_widen (u : string) (up : UserPreferences F) (prefs : Preferences F) :
  dict_set u (widen_user (RT := wide) up) (widen_prefs prefs)
  = widen_prefs (dict_set u up prefs).
Proof.
  induction prefs as [|[u' up'] prefs IH]; [reflexivity|].
  cbn [widen_prefs map dict_set fst snd].
  destruct (String.eqb u u'); [reflexivity|].
  cbn [map fst snd]. f_equal. exact IH.
Qed.

Lemma record_rating_agrees (g : string) (prefs : Preferences F) (u : string)
    (rating : pynum F) :
  General.record_rating (RT := wide) (General.Hashable (General.StrKey g))
    (widen_prefs prefs) u rating
  = widen_result (record_rating g prefs u rating).
Proof.
  unfold General.record_rating, record_rating.
  rewrite dict_get_default_widen, genre_get_widen.
  change (match dict_get g (dict_get_default u prefs []) with
          | Some st => st
          | None => new_stats
          end)
    with (dict_get_default g (dict_get_default u prefs []) new_stats).
  destruct (update_stats
              (dict_get_default g (dict_get_default u prefs []) new_stats) rating)
    as [st|e]; cbn [bind widen_result]; [|reflexivity].
  now rewrite genre_set_widen, dict_set_widen.
Qed.

Lemma rate_cells_agree (g : string) (ucs : list (string * option (pynum F)))
    (prefs : Preferences F) :
  for_each (General.rate_cell (RT := wide) (General.Hashable (General.StrKey g)))
    ucs (widen_prefs prefs)
  = widen_result (for_each (rate_cell g) ucs prefs).
Proof.
  revert prefs. induction ucs as [|uc ucs IH]; intros prefs; cbn [for_each];
    [reflexivity|].
  unfold General.rate_cell at 1, rate_cell at 1.
  destruct (isna (snd uc)); [cbn [bind]; apply IH|].
  destruct (snd uc) as [rating|]; [|cbn [bind]; apply IH].
  rewrite record_rating_agrees.
  destruct (record_rating g prefs (fst uc) rating) as [prefs'|e];
    cbn [bind widen_result]; [apply IH | reflexivity].
Qed.

Lemma process_row_agrees (cols : list string) (prefs : Preferences F) (row : Row F) :
  General.process_row (RT := wide) cols (widen_prefs prefs) row
  = widen_result (process_row cols prefs row).
Proof.
  unfold General.process_row, process_row.
  destruct (genre row) as [raw|]; [|reflexivity].
  destruct (String.eqb raw ""); [reflexivity|].
  rewrite effective_genre_agrees.
  destruct (effective_genre raw) as [g|e]; cbn [bind]; [|reflexivity].
  apply rate_cells_agree.
Qed.

Lemma rows_agree (cols : list string) (rs : list (Row F)) (prefs : Preferences F) :
  for_each (General.process_row (RT := wide) cols) rs (widen_prefs prefs)
  = widen_result (for_each (process_row cols) rs prefs).
Proof.
  revert prefs. induction rs as [|row rs IH]; intros prefs; cbn [for_each];
    [reflexivity|].
  rewrite process_row_agrees.
  destruct (process_row cols prefs row) as [prefs'|e];
    cbn [bind widen_result]; [apply IH | reflexivity].
Qed.

(** On a runtime of the first kind the general aggregator computes what
    the first one does. *)
Lemma general_agrees (df : DataFrame F) :
  General.calculate_genre_preferences (RT := wide) df
  = widen_result (calculate_genre_preferences df).
Proof.
  unfold General.calculate_genre_preferences, General.calculate_rows,
    calculate_genre_preferences, calculate_rows.
  exact (rows_agree (columns df) (rows df) []).
Qed.

End Agreement.

Section GeneralExamples.
Context {RT : General.Runtime}.

Lemma one_row_filed (raw : string) (k : General.genre_key General.other_key) :
  raw <> "" ->
  General.effective_genre raw = Ok (General.Hashable k) ->
  General.calculate_genre_preferences (one_row_df raw)
  = Ok [("user_A", [(k, stat_of_int 4 4.0 1)])].
Proof.
  intros Hne Hg. apply String.eqb_neq in Hne.
  unfold General.calculate_genre_preferences, General.calculate_rows.
  cbn [rows columns one_row_df for_each]. unfold General.process_row.
  cbn [genre]. rewrite Hne, Hg. cbn [bind]. vm_compute. reflexivity.
Qed.

Lemma one_row_raises (raw : string) (e : exn) :
  raw <> "" ->
  General.effective_genre raw = Raise e ->
  General.calculate_genre_preferences (one_row_df raw) = Raise e.
Proof.
  intros Hne Hg. apply String.eqb_neq in Hne.
  unfold General.calculate_genre_preferences, General.calculate_rows.
  cbn [rows columns one_row_df for_each]. unfold General.process_row.
  cbn [genre]. rewrite Hne, Hg. reflexivity.
Qed.

End GeneralExamples.

(** * The claims of the specification *)

(** C1. For the two-row table (Rock: user_A = 5, user_B = 3; Pop: user_A = 2,
    user_B = 4) the aggregator yields user_A: Rock (5, 5.0, 1), Pop
    (2, 2.0, 1) and user_B: Rock (3, 3.0, 1), Pop (4, 4.0, 1); on these
    preferences [find_similar_users "user_A" _ 1] is [["user_B"]] and
    [find_next_best_genre "user_A" _ ["user_B"] 1] is ["Pop"].  This holds
    in binary64 whatever the literal parser and the set order are. *)
Theorem scenario_end_to_end (RT : Runtime) :
  calculate_genre_preferences scenario_df = Ok scenario_prefs
  /\ find_similar_users "user_A" scenario_prefs 1 = ["user_B"]
  /\ find_next_best_genre "user_A" scenario_prefs ["user_B"] 1 = Ok (Some "Pop").
Proof.
  repeat split; vm_compute; reflexivity.
Qed.

(** C2. After every row-processing step of [calculate_genre_preferences],
    every stored (user, genre) entry has a positive integer count, its count
    is the number of ratings contributed to the pair so far, its total is
    their sum, and its average is its total divided by its count. *)
Theorem aggregator_invariant {F : Type} {FA : FloatArith F} {RT : Runtime}
    (df : DataFrame F) (processed remaining : list (Row F))
    (prefs : Preferences F) :
  rows df = processed ++ remaining ->
  calculate_genre_preferences df = Ok prefs ->
  exists state,
    calculate_rows (columns df) processed = Ok state
    /\ for_each (process_row (columns df)) remaining state = Ok prefs
    /\ forall user g st,
        stats_at state user g = Some st ->
        0 < count st
        /\ count st
           = Z.of_nat (List.length (contributions (columns df) processed user g))
        /\ total st = sum_ratings (contributions (columns df) processed user g)
        /\ average st
           = PyFloat (fdiv (to_float (total st)) (f_of_Z (count st))).
Proof.
  intros Hrows Hrun. unfold calculate_genre_preferences, calculate_rows in Hrun.
  rewrite Hrows, for_each_app in Hrun.
  destruct (for_each (process_row (columns df)) processed []) as [state|e] eqn:Hstate;
    [|discriminate].
  exists state. split; [exact Hstate|]. split; [exact Hrun|].
  intros user g st Hst.
  destruct (calculate_rows_ok _ _ _ Hstate) as [_ Hspec].
  rewrite Hspec in Hst.
  destruct (contributions (columns df) processed user g) as [|r l]; [discriminate|].
  injection Hst as <-. unfold stats_entry. cbn [count total average].
  repeat split.
Qed.

Lemma aggregator_invariant_witness :
  exists state,
    calculate_rows (columns scenario_df) (firstn 1 (rows scenario_df)) = Ok state
    /\ for_each (process_row (columns scenario_df)) (skipn 1 (rows scenario_df)) state
       = Ok scenario_prefs
    /\ forall user g st,
        stats_at state user g = Some st ->
        0 < count st
        /\ count st
           = Z.of_nat (List.length (contributions (columns scenario_df)
                                      (firstn 1 (rows scenario_df)) user g))
        /\ total st = sum_ratings (contributions (columns scenario_df)
                                     (firstn 1 (rows scenario_df)) user g)
        /\ average st
           = PyFloat (fdiv (to_float (total st)) (f_of_Z (count st))).
Proof.
  apply (aggregator_invariant scenario_df); vm_compute; reflexivity.
Defined.



(** Floating-point totals depend on the order of the rows: the ratings 0.1,
    0.2, 0.3 add up to 0.6000000000000001, and in reverse order to 0.6. *)
Lemma tenths_totals :
  option_map total (stats_at_result (calculate_genre_preferences tenths_df))
  = Some (PyFloat 0.6000000000000001%float)
  /\ option_map total (stats_at_result (calculate_genre_preferences tenths_reversed_df))
     = Some (PyFloat 0.6%float).
Proof. split; vm_compute; reflexivity. Qed.

(** The difference is not bounded by rounding: the total of 1e308, 1e308
    and -1e308 is infinite in this order, and 1e308 when the negative
    rating comes second. *)
Lemma extremes_totals :
  option_map total (stats_at_result (calculate_genre_preferences extremes_df))
  = Some (PyFloat infinity)
  /\ option_map total
       (stats_at_result (calculate_genre_preferences extremes_permuted_df))
     = Some (PyFloat 1e308%float).
Proof. split; vm_compute; reflexivity. Qed.

(** The exception raised is that of the first offending row. *)
Lemma two_faults_exceptions :
  General.calculate_genre_preferences (RT := example_runtime) two_faults_df
  = Raise IndexError
  /\ General.calculate_genre_preferences (RT := example_runtime)
       two_faults_permuted_df
     = Raise TypeError.
Proof. split; vm_compute; reflexivity. Qed.




(** C5. With a target user that is not a key of the preference mapping,
    [find_similar_users] returns the empty list and [find_next_best_genre]
    returns [None]; with an empty list of similar users
    [find_next_best_genre] returns [None]; none of these calls raises. *)
Theorem unknown_target_fails_soft {F : Type} {FA : FloatArith F} {RT : Runtime}
    (prefs : Preferences F) :
  (forall target n,
      dict_mem target prefs = false -> find_similar_users target prefs n = [])
  /\ (forall target similar k,
         dict_mem target prefs = false ->
         find_next_best_genre target prefs similar k = Ok None)
  /\ (forall target k, find_next_best_genre target prefs [] k = Ok None).
Proof.
  split; [|split].
  - intros target n H. unfold find_similar_users. now rewrite H.
  - intros target similar k H. unfold find_next_best_genre.
    rewrite H. cbn [negb]. now rewrite orb_true_r.
  - reflexivity.
Qed.

Lemma unknown_target_fails_soft_witness :
  find_similar_users "user_Z" scenario_prefs 3 = []
  /\ find_next_best_genre "user_Z" scenario_prefs ["user_B"] 2 = Ok None
  /\ find_next_best_genre "user_A" scenario_prefs [] 2 = Ok None.
Proof.
  destruct (unknown_target_fails_soft scenario_prefs) as (Hsim & Hnext & Hempty).
  split; [|split].
  - apply Hsim. reflexivity.
  - apply Hnext. reflexivity.
  - apply Hempty.
Defined.

(** C6. For a preference mapping (distinct users) that contains the target
    and for n >= 0, the list [find_similar_users] returns has length
    min(n, number of other users) -- so at most that --, never contains the
    target, holds only other users of the mapping, is empty for n = 0, and
    holds every other user once n reaches their number. *)
Theorem similar_users_bounds {F : Type} {FA : FloatArith F} {RT : Runtime}
    (prefs : Preferences F) (target : string) (n : Z) :
  NoDup (keys prefs) ->
  dict_mem target prefs = true ->
  0 <= n ->
  List.length (find_similar_users target prefs n)
  = Nat.min (Z.to_nat n) (List.length (other_users target prefs))
  /\ ~ In target (find_similar_users target prefs n)
  /\ (forall u, In u (find_similar_users target prefs n) ->
                In u (other_users target prefs))
  /\ (n = 0 -> find_similar_users target prefs n = [])
  /\ (Z.of_nat (List.length (other_users target prefs)) <= n ->
      Permutation (find_similar_users target prefs n) (other_users target prefs)).
Proof.
  intros Hnd Hmem Hn.
  rewrite (find_similar_users_unfold _ _ _ Hnd Hmem), (slice_to_nonneg _ _ Hn).
  set (sims := similarity_table target prefs).
  assert (Hkeys : map fst sims = other_users target prefs)
    by apply (keys_similarities _ _ _ Hnd).
  assert (Hlen : List.length (sorted_desc snd sims)
                 = List.length (other_users target prefs)).
  { rewrite sorted_desc_length, <- Hkeys. now rewrite length_map. }
  assert (Hin : forall u, In u (map fst (firstn (Z.to_nat n) (sorted_desc snd sims))) ->
                          In u (other_users target prefs)).
  { intros u Hu. apply in_map_iff in Hu. destruct Hu as (x & <- & Hx).
    apply In_firstn, sorted_desc_In in Hx. rewrite <- Hkeys. now apply in_map. }
  split; [|split; [|split; [|split]]].
  - now rewrite length_map, length_firstn, Hlen.
  - intros Hu. apply Hin in Hu. unfold other_users in Hu.
    apply filter_In in Hu. destruct Hu as [_ Hu].
    now rewrite String.eqb_refl in Hu.
  - exact Hin.
  - intros ->. reflexivity.
  - intros Hall. rewrite firstn_all2 by lia.
    rewrite <- Hkeys. apply Permutation_map, sorted_desc_perm.
Qed.

Lemma similar_users_bounds_witness :
  List.length (find_similar_users "user_A" scenario_prefs 1)
  = Nat.min (Z.to_nat 1) (List.length (other_users "user_A" scenario_prefs))
  /\ ~ In "user_A" (find_similar_users "user_A" scenario_prefs 1)
  /\ (forall u, In u (find_similar_users "user_A" scenario_prefs 1) ->
                In u (other_users "user_A" scenario_prefs))
  /\ (1 = 0 -> find_similar_users "user_A" scenario_prefs 1 = [])
  /\ (Z.of_nat (List.length (other_users "user_A" scenario_prefs)) <= 1 ->
      Permutation (find_similar_users "user_A" scenario_prefs 1)
                  (other_users "user_A" scenario_prefs)).
Proof.
  apply (similar_users_bounds scenario_prefs "user_A" 1).
  - repeat constructor; simpl; intuition discriminate.
  - reflexivity.
  - lia.
Defined.

(** C7 (amended). With distinct users, the similarity [find_similar_users]
    stores for another user is the cosine of the two vectors: the dot
    product over the product of the norms when both computed norms are
    non-zero, and 0 when either is zero.  A vector of zeros has similarity 0
    with every vector.  The similarity of a vector with itself is computed
    from its squared norm [d] alone, as [d / (sqrt d * sqrt d)].  Over the
    reals it is exactly 1 for a vector with a non-zero entry.  In binary64
    it is within 8 units of roundoff (2^-50) of 1 whenever [d] is a
    positive number and the root, the product and the quotient are each
    rounded with a relative error of at most 2^-53, which is what rounding
    to nearest does away from overflow and underflow: 1 for (3, 4), and
    1.0000000000000002 for (5, 2). *)
Theorem cosine_similarity_cases :
  (forall (F : Type) (FA : FloatArith F) (RT : Runtime)
          (prefs : Preferences F) (target u : string) (up : UserPreferences F),
      NoDup (keys prefs) ->
      dict_mem target prefs = true ->
      u <> target ->
      dict_get u prefs = Some up ->
      (forall n, find_similar_users target prefs n
                 = map fst (slice_to (sorted_desc snd (similarity_table target prefs)) n))
      /\ similarity_to target prefs u
         = Some (cosine_sim (vector_in prefs target) (vector_in prefs u))
      /\ (feqb (norm (vector_in prefs target)) (f_of_Z 0) = false ->
          feqb (norm (vector_in prefs u)) (f_of_Z 0) = false ->
          cosine_sim (vector_in prefs target) (vector_in prefs u)
          = fdiv (dot (vector_in prefs target) (vector_in prefs u))
                 (fmul (norm (vector_in prefs target)) (norm (vector_in prefs u))))
      /\ (feqb (norm (vector_in prefs target)) (f_of_Z 0) = true
          \/ feqb (norm (vector_in prefs u)) (f_of_Z 0) = true ->
          cosine_sim (vector_in prefs target) (vector_in prefs u) = f_of_Z 0))
  /\ (forall v z : list float,
         Forall (fun x => PrimFloat.eqb x 0 = true) z ->
         cosine_sim v z = 0%float /\ cosine_sim z v = 0%float)
  /\ (forall v z : list R,
         Forall (fun x => x = 0%R) z ->
         cosine_sim (FA := ideal_reals) v z = 0%R
         /\ cosine_sim (FA := ideal_reals) z v = 0%R)
  /\ (forall v : list R,
         Exists (fun x => x <> 0%R) v -> cosine_sim (FA := ideal_reals) v v = 1%R)
  /\ (forall (F : Type) (FA : FloatArith F) (v : list F),
         cosine_sim v v
         = cosine_of (dot v v) (fsqrt (dot v v)) (fsqrt (dot v v)))
  /\ (forall d : float,
         (0 < float_value d)%R ->
         rounded_within unit_roundoff
           (float_value (PrimFloat.sqrt d)) (sqrt (float_value d)) ->
         rounded_within unit_roundoff
           (float_value (PrimFloat.mul (PrimFloat.sqrt d) (PrimFloat.sqrt d)))
           (float_value (PrimFloat.sqrt d) * float_value (PrimFloat.sqrt d)) ->
         rounded_within unit_roundoff
           (float_value
              (PrimFloat.div d (PrimFloat.mul (PrimFloat.sqrt d) (PrimFloat.sqrt d))))
           (float_value d
            / float_value (PrimFloat.mul (PrimFloat.sqrt d) (PrimFloat.sqrt d))) ->
         cosine_of d (PrimFloat.sqrt d) (PrimFloat.sqrt d)
         = PrimFloat.div d (PrimFloat.mul (PrimFloat.sqrt d) (PrimFloat.sqrt d))
         /\ (Rabs (float_value (cosine_of d (PrimFloat.sqrt d) (PrimFloat.sqrt d)) - 1)
             <= 8 * unit_roundoff)%R)
  /\ cosine_sim [3%float; 4%float] [3%float; 4%float] = 1%float
  /\ cosine_sim [5%float; 2%float] [5%float; 2%float] = 1.0000000000000002%float.
Proof.
  split; [|split; [|split; [|split; [|split; [|split]]]]].
  - intros F FA RT prefs target u up Hnd Hmem Hne Hup.
    split; [|split; [|split]].
    + intros n. now apply find_similar_users_unfold.
    + rewrite (similarity_to_other _ _ _ Hnd).
      apply String.eqb_neq in Hne. rewrite Hne, Hup.
      unfold vector_in at 3. unfold dict_get_default. now rewrite Hup.
    + intros Ht Hu. unfold cosine_sim. now rewrite Ht, Hu.
    + intros H. unfold cosine_sim.
      destruct H as [-> | ->]; [reflexivity | now rewrite orb_true_r].
  - intros v z Hz. unfold cosine_sim.
    rewrite (norm_zero_vector z Hz). change (f_of_Z 0) with 0%float.
    change (feqb 0%float 0%float) with true.
    split; [now rewrite orb_true_r | reflexivity].
  - exact cosine_zero_ideal.
  - exact cosine_self_ideal.
  - intros F FA v. reflexivity.
  - exact self_similarity_binary64.
  - split; vm_compute; reflexivity.
Qed.

Lemma cosine_similarity_cases_witness :
  similarity_to "user_A" scenario_prefs "user_B"
  = Some (cosine_sim (vector_in scenario_prefs "user_A")
                     (vector_in scenario_prefs "user_B"))
  /\ dot [5%float; 2%float] [5%float; 2%float] = 29%float
  /\ cosine_of 29%float (PrimFloat.sqrt 29) (PrimFloat.sqrt 29)
     = 1.0000000000000002%float
  /\ (Rabs (float_value (cosine_of 29%float (PrimFloat.sqrt 29) (PrimFloat.sqrt 29))
            - 1)
      <= 8 * unit_roundoff)%R.
Proof.
  destruct cosine_similarity_cases as (Hstored & _ & _ & _ & _ & Hself & _).
  split; [|split; [|split]].
  - apply (Hstored float binary64 py_runtime scenario_prefs "user_A" "user_B"
             [("Rock", stat_of_int 3 3.0 1); ("Pop", stat_of_int 4 4.0 1)]).
    + repeat constructor; simpl; intuition discriminate.
    + reflexivity.
    + discriminate.
    + reflexivity.
  - vm_compute. reflexivity.
  - vm_compute. reflexivity.
  - apply (Hself 29%float).
    + float_values. lra.
    + float_values. apply sqrt_rounded_within; lra.
    + float_values. unfold rounded_within.
      rewrite (Rabs_pos_eq (_ * _)) by lra. apply Rabs_le. lra.
    + float_values. unfold rounded_within.
      rewrite (Rabs_pos_eq (_ / _)) by lra. apply Rabs_le. lra.
Defined.

(** The squared norm of (1e-200) underflows to zero, so the zero-norm
    branch is taken for two identical vectors that are not zero. *)
Lemma tiny_vectors :
  calculate_genre_preferences tiny_df = Ok tiny_prefs
  /\ vector_in tiny_prefs "user_A" = [1e-200%float]
  /\ vector_in tiny_prefs "user_B" = [1e-200%float]
  /\ norm (vector_in tiny_prefs "user_A") = 0%float
  /\ similarity_to "user_A" tiny_prefs "user_B" = Some 0%float
  /\ find_similar_users "user_A" tiny_prefs 3 = ["user_B"].
Proof. repeat split; vm_compute; reflexivity. Qed.

(** The squared norm of (1e200) overflows to infinity, and the quotient of
    two infinities is NaN. *)
Lemma huge_vectors :
  calculate_genre_preferences huge_df = Ok huge_prefs
  /\ vector_in huge_prefs "user_A" = [1e200%float]
  /\ vector_in huge_prefs "user_B" = [1e200%float]
  /\ norm (vector_in huge_prefs "user_A") = infinity
  /\ similarity_to "user_A" huge_prefs "user_B" = Some nan
  /\ find_similar_users "user_A" huge_prefs 3 = ["user_B"].
Proof. repeat split; vm_compute; reflexivity. Qed.

(** C7 as stated fails in binary64: two users with the same vector, of
    non-zero entries and non-zero computed norm, whose stored similarity is
    not 1 within any tolerance (it is NaN). *)
Lemma identical_vectors_not_similar :
  ~ (forall (prefs : Preferences float) (target u : string) (s : float),
        NoDup (keys prefs) ->
        dict_mem target prefs = true ->
        similarity_to target prefs u = Some s ->
        vector_in prefs u = vector_in prefs target ->
        Forall (fun x => PrimFloat.eqb x 0 = false) (vector_in prefs target) ->
        PrimFloat.eqb (norm (vector_in prefs target)) 0 = false ->
        close_to 0.5 s 1 = true).
Proof.
  intros H.
  assert (Hnd : NoDup (keys huge_prefs))
    by (repeat constructor; simpl; intuition discriminate).
  specialize (H huge_prefs "user_A" "user_B" nan Hnd eq_refl eq_refl eq_refl).
  assert (Hnz : Forall (fun x => PrimFloat.eqb x 0 = false)
                       (vector_in huge_prefs "user_A"))
    by (repeat constructor).
  specialize (H Hnz eq_refl). vm_compute in H. discriminate H.
Qed.

(** C8. A genre cell that begins with [[] and ends with []] is handed to the
    literal parser.  When the parse yields a non-empty list its first item
    is the effective genre (["['Jazz', 'Blues']"] is filed under ["Jazz"]).
    When the parser raises [ValueError] or [SyntaxError] the raw string is
    the genre (["[Jazz]"] stays ["[Jazz]"]); the cell ["[Jazz"] stays the key
    ["[Jazz"] as well, since it does not end with []] and no parse is
    attempted.  Any other exception of the parser is not caught: the
    [TypeError] it raises on ["[{[]}]"] ends the aggregation. *)
Theorem list_literal_genre :
  (forall (RT : General.Runtime) raw first rest,
      startswith "[" raw = true -> endswith "]" raw = true ->
      General.literal_eval raw = General.ListValue (first :: rest) ->
      General.effective_genre raw = Ok (General.genre_of_item first))
  /\ (forall (RT : General.Runtime) raw e,
         startswith "[" raw = true -> endswith "]" raw = true ->
         General.literal_eval raw = General.Raises e ->
         General.effective_genre raw
         = if caught_at_line_30 e
           then Ok (General.Hashable (General.StrKey raw))
           else Raise e)
  /\ (forall (RT : General.Runtime) raw,
         startswith "[" raw && endswith "]" raw = false ->
         General.effective_genre raw = Ok (General.Hashable (General.StrKey raw)))
  /\ (forall RT : General.Runtime,
         General.literal_eval "['Jazz', 'Blues']"
         = General.ListValue [General.ItemStr "Jazz"; General.ItemStr "Blues"] ->
         General.calculate_genre_preferences (one_row_df "['Jazz', 'Blues']")
         = Ok [("user_A", [(General.StrKey "Jazz", stat_of_int 4 4.0 1)])])
  /\ (forall RT : General.Runtime,
         General.calculate_genre_preferences (one_row_df "[Jazz")
         = Ok [("user_A", [(General.StrKey "[Jazz", stat_of_int 4 4.0 1)])])
  /\ (forall (RT : General.Runtime) e,
         General.literal_eval "[Jazz]" = General.Raises e ->
         caught_at_line_30 e = true ->
         General.calculate_genre_preferences (one_row_df "[Jazz]")
         = Ok [("user_A", [(General.StrKey "[Jazz]", stat_of_int 4 4.0 1)])])
  /\ (forall RT : General.Runtime,
         General.literal_eval "[{[]}]" = General.Raises TypeError ->
         General.calculate_genre_preferences (one_row_df "[{[]}]")
         = Raise TypeError).
Proof.
  assert (Hlist : forall (RT : General.Runtime) raw first rest,
             startswith "[" raw = true -> endswith "]" raw = true ->
             General.literal_eval raw = General.ListValue (first :: rest) ->
             General.effective_genre raw = Ok (General.genre_of_item first)).
  { intros RT raw first rest Hs He Hlit. unfold General.effective_genre.
    now rewrite Hs, He, Hlit. }
  assert (Hraise : forall (RT : General.Runtime) raw e,
             startswith "[" raw = true -> endswith "]" raw = true ->
             General.literal_eval raw = General.Raises e ->
             General.effective_genre raw
             = if caught_at_line_30 e
               then Ok (General.Hashable (General.StrKey raw))
               else Raise e).
  { intros RT raw e Hs He Hlit. unfold General.effective_genre.
    now rewrite Hs, He, Hlit. }
  assert (Hraw : forall (RT : General.Runtime) raw,
             startswith "[" raw && endswith "]" raw = false ->
             General.effective_genre raw
             = Ok (General.Hashable (General.StrKey raw))).
  { intros RT raw Hb. unfold General.effective_genre. now rewrite Hb. }
  split; [exact Hlist|]. split; [exact Hraise|]. split; [exact Hraw|].
  split; [|split; [|split]].
  - intros RT Hlit. apply one_row_filed; [discriminate|].
    now rewrite (Hlist RT "['Jazz', 'Blues']" _ _ eq_refl eq_refl Hlit).
  - intros RT. apply one_row_filed; [discriminate|]. now apply Hraw.
  - intros RT e Hlit Hc. apply one_row_filed; [discriminate|].
    now rewrite (Hraise RT "[Jazz]" _ eq_refl eq_refl Hlit), Hc.
  - intros RT Hlit. apply one_row_raises; [discriminate|].
    now rewrite (Hraise RT "[{[]}]" _ eq_refl eq_refl Hlit).
Qed.

Lemma list_literal_genre_witness :
  General.calculate_genre_preferences (RT := example_runtime)
    (one_row_df "['Jazz', 'Blues']")
  = Ok [("user_A", [(General.StrKey "Jazz", stat_of_int 4 4.0 1)])]
  /\ General.calculate_genre_preferences (RT := example_runtime)
       (one_row_df "[Jazz]")
     = Ok [("user_A", [(General.StrKey "[Jazz]", stat_of_int 4 4.0 1)])]
  /\ General.calculate_genre_preferences (RT := example_runtime)
       (one_row_df "[{[]}]")
     = Raise TypeError.
Proof.
  destruct list_literal_genre as (_ & _ & _ & Hjazz & _ & Hcaught & Hescapes).
  split; [|split].
  - apply (Hjazz example_runtime). reflexivity.
  - apply (Hcaught example_runtime ValueError); reflexivity.
  - apply (Hescapes example_runtime). reflexivity.
Defined.

(** C9. A row whose genre cell is ["[]"] makes [calculate_genre_preferences]
    raise [IndexError]: the cell passes the bracket test, the parse succeeds
    with the empty list, and its first element is taken without a check. *)
Theorem empty_list_literal_raises {F : Type} {FA : FloatArith F} {RT : Runtime}
    (df : DataFrame F) (row : Row F) :
  literal_eval "[]" = LitList [] ->
  In row (rows df) ->
  genre row = Some "[]" ->
  effective_genre "[]" = Raise IndexError
  /\ calculate_genre_preferences df = Raise IndexError.
Proof.
  intros Hlit Hin Hgenre.
  assert (Heff : effective_genre "[]" = Raise IndexError).
  { unfold effective_genre. rewrite Hlit. reflexivity. }
  split; [exact Heff|].
  pose proof (calculate_rows_spec (columns df) (rows df)) as H.
  assert (Hex : existsb row_raises (rows df) = true).
  { apply existsb_exists. exists row. split; [exact Hin|].
    unfold row_raises. rewrite Hgenre, Heff. reflexivity. }
  rewrite Hex in H. exact H.
Qed.

Lemma empty_list_literal_raises_witness :
  effective_genre "[]" = Raise IndexError
  /\ calculate_genre_preferences (one_row_df "[]") = Raise IndexError.
Proof.
  apply (empty_list_literal_raises (one_row_df "[]")
           {| genre := Some "[]"; cells := [int_cell 4] |}).
  - reflexivity.
  - left. reflexivity.
  - reflexivity.
Defined.

(** C10 (amended). Identifiers of [similar_users] that are not keys of the
    mapping never make [find_next_best_genre] raise.  They add no term to
    any score: the score table is the one obtained from the users present in
    the mapping alone, each weighted by 1 - index / len with index and len
    taken in the whole list, absent identifiers included.  The outcome is
    the one the same call gives when an absent identifier is a user of the
    mapping with no preferences. *)
Theorem absent_similar_users_skipped {F : Type} {FA : FloatArith F} {RT : Runtime}
    (prefs : Preferences F) (target : string) (similar : list string) (k : Z) :
  (exists outcome, find_next_best_genre target prefs similar k = Ok outcome)
  /\ (forall top,
         exists scores,
           genre_scores_of prefs top similar = Ok scores
           /\ forall g,
                dict_get g scores
                = running_sum
                    (flat_map (user_terms prefs top similar g)
                       (filter (fun u => dict_mem u prefs) similar)))
  /\ (forall top g u,
         dict_mem u prefs = false -> user_terms prefs top similar g u = [])
  /\ (forall ghost,
         dict_mem target prefs = true ->
         dict_mem ghost prefs = false ->
         find_next_best_genre target (prefs ++ [(ghost, [])]) similar k
         = find_next_best_genre target prefs similar k).
Proof.
  split; [|split; [|split]].
  - unfold find_next_best_genre.
    destruct (is_empty similar || negb (dict_mem target prefs)); [now eexists|].
    destruct (genre_scores_spec prefs
                (target_top_genres_of (dict_get_default target prefs []) k) similar)
      as (scores & -> & _).
    cbn [bind]. now eexists.
  - intros top. destruct (genre_scores_spec prefs top similar)
      as (scores & Hrun & _ & Hget).
    exists scores. split; [exact Hrun|]. intros g. rewrite Hget.
    unfold score_terms. f_equal. symmetry. apply flat_map_filter_nil.
    intros u Hu. now apply user_terms_absent.
  - intros top g u. apply user_terms_absent.
  - intros ghost Htarget Hghost. unfold find_next_best_genre.
    assert (Hget : dict_get target (prefs ++ [(ghost, [])]) = dict_get target prefs).
    { rewrite dict_get_app. unfold dict_mem in Htarget.
      now destruct (dict_get target prefs). }
    unfold dict_mem, dict_get_default. rewrite Hget.
    destruct (is_empty similar
              || negb match dict_get target prefs with
                      | Some _ => true
                      | None => false
                      end); [reflexivity|].
    unfold genre_scores_of.
    rewrite (for_each_ext _ (score_user prefs
               (target_top_genres_of
                  match dict_get target prefs with Some v => v | None => [] end k)
               similar)); [reflexivity|].
    intros scores u. now apply score_user_absent.
Qed.

Lemma absent_similar_users_skipped_witness :
  (exists outcome,
      find_next_best_genre "user_A" scenario_prefs ["ghost"; "user_B"] 1 = Ok outcome)
  /\ find_next_best_genre "user_A" (scenario_prefs ++ [("ghost", [])])
       ["ghost"; "user_B"] 1
     = find_next_best_genre "user_A" scenario_prefs ["ghost"; "user_B"] 1.
Proof.
  destruct (absent_similar_users_skipped scenario_prefs "user_A"
              ["ghost"; "user_B"] 1) as (Hok & _ & _ & Hghost).
  split; [exact Hok|]. apply Hghost; reflexivity.
Defined.

(** An absent identifier keeps its rank: behind it, user_B weighs 1 - 1/2,
    and Pop scores 4.0 * 0.5. *)
Lemma absent_user_keeps_its_rank :
  weight_of ["ghost"; "user_B"] "user_B" = 0.5%float
  /\ genre_scores_of scenario_prefs ["Rock"] ["ghost"; "user_B"]
     = Ok [("Pop", 2%float)]
  /\ find_next_best_genre "user_A" scenario_prefs ["ghost"; "user_B"] 1
     = Ok (Some "Pop").
Proof. repeat split; vm_compute; reflexivity. Qed.

(** The rank an absent identifier keeps is taken from the users behind it:
    with ghost between them, user_C weighs 1 - 2/3 instead of 1 - 1/2, Jazz
    scores 7.0 * 0.33 instead of 7.0 * 0.5, and the recommendation goes
    from Jazz to Pop. *)
Lemma absent_user_changes_recommendation :
  weight_of ["user_B"; "user_C"] "user_C" = 0.5%float
  /\ weight_of ["user_B"; "ghost"; "user_C"] "user_C" = 0.33333333333333337%float
  /\ genre_scores_of one_genre_each_prefs ["Rock"] ["user_B"; "user_C"]
     = Ok [("Pop", 3%float); ("Jazz", 3.5%float)]
  /\ genre_scores_of one_genre_each_prefs ["Rock"] ["user_B"; "ghost"; "user_C"]
     = Ok [("Pop", 3%float); ("Jazz", 2.3333333333333335%float)]
  /\ find_next_best_genre "user_A" one_genre_each_prefs ["user_B"; "user_C"] 1
     = Ok (Some "Jazz")
  /\ find_next_best_genre "user_A" one_genre_each_prefs
       ["user_B"; "ghost"; "user_C"] 1
     = Ok (Some "Pop").
Proof. repeat split; vm_compute; reflexivity. Qed.

(** C10 as stated fails: the weight of a user of the mapping is not the
    weight it has in the list without the absent identifiers. *)
Lemma absent_user_changes_weights :
  ~ (forall (prefs : Preferences float) (similar : list string) (u : string),
        dict_mem u prefs = true ->
        In u similar ->
        weight_of similar u
        = weight_of (filter (fun v => dict_mem v prefs) similar) u).
Proof.
  intros H.
  specialize (H one_genre_each_prefs ["user_B"; "ghost"; "user_C"] "user_C"
                eq_refl).
  assert (Hin : In "user_C" ["user_B"; "ghost"; "user_C"])
    by (right; right; now left).
  specialize (H Hin). vm_compute in H. discriminate H.
Qed.

(** * Further properties of the code *)

(** ** The aggregator *)

Section AggregatorMore.
Context {F : Type} {FA : FloatArith F} {RT : Runtime}.
Implicit Types (p : Preferences F) (row : Row F).

Lemma process_row_without_genre cols p row :
  has_genre row = false -> process_row cols p row = Ok p.
Proof.
  unfold has_genre, process_row. destruct (genre row) as [raw|]; [|reflexivity].
  destruct (String.eqb raw ""); [reflexivity | discriminate].
Qed.

Lemma for_each_filter_skipped cols (rs : list (Row F)) :
  forall p,
    for_each (process_row cols) (filter has_genre rs) p
    = for_each (process_row cols) rs p.
Proof.
  induction rs as [|row rs IH]; intros p; cbn [filter for_each]; [reflexivity|].
  destruct (has_genre row) eqn:E; cbn [for_each].
  - destruct (process_row cols p row); cbn [bind]; [apply IH | reflexivity].
  - rewrite (process_row_without_genre _ _ _ E). cbn [bind]. apply IH.
Qed.

Lemma dict_set_nonempty {V : Type} (k : string) (v : V) (d : dict V) :
  dict_set k v d <> [].
Proof.
  destruct d as [|[k' v'] d]; cbn [dict_set]; [discriminate|].
  destruct (String.eqb k k'); discriminate.
Qed.

Lemma calculate_rows_users_nonempty cols rs p :
  calculate_rows cols rs = Ok p -> users_nonempty p.
Proof.
  unfold calculate_rows.
  apply (for_each_preserves users_nonempty (process_row cols)).
  - intros s row s' Hs. unfold process_row.
    destruct (genre row) as [raw|]; [|now intros [= <-]].
    destruct (String.eqb raw ""); [now intros [= <-]|].
    destruct (effective_genre raw) as [g|e]; [|discriminate]. cbn [bind].
    apply (for_each_preserves users_nonempty (rate_cell g)); [|exact Hs].
    intros s1 uc s2 Hs1. unfold rate_cell.
    destruct (isna (snd uc)); [now intros [= <-]|].
    destruct (snd uc) as [rating|]; [|now intros [= <-]].
    unfold record_rating. destruct (update_stats _ rating) as [st|e]; [|discriminate].
    cbn [bind]. intros [= <-] u up. rewrite dict_get_set.
    destruct (String.eqb u (fst uc)); [|apply Hs1].
    intros [= <-]. apply dict_set_nonempty.
  - intros u up. discriminate.
Qed.


Lemma flat_map_nonempty {A B : Type} (f : A -> list B) (l : list A) :
  flat_map f l <> [] -> exists a, In a l /\ f a <> [].
Proof.
  induction l as [|a l IH]; cbn [flat_map]; [congruence|].
  intros H. destruct (f a) as [|b fb] eqn:E.
  - destruct (IH H) as (a' & Hin & Hne). exists a'. split; [now right | exact Hne].
  - exists a. split; [now left | congruence].
Qed.

Lemma flat_map_In_nonempty {A B : Type} (f : A -> list B) (l : list A) (a : A) :
  In a l -> f a <> [] -> flat_map f l <> [].
Proof.
  intros Hin Hne H. apply Hne.
  destruct (f a) as [|b fb] eqn:E; [reflexivity|].
  assert (Hb : In b (flat_map f l)).
  { apply in_flat_map. exists a. split; [exact Hin|]. rewrite E. now left. }
  rewrite H in Hb. contradiction.
Qed.

(** The cells that count for [u]: a rating that is not null, in column [u]. *)
Lemma cell_ratings_nonempty u (ucs : list (string * option (pynum F))) :
  cell_ratings u ucs <> []
  <-> exists rating, In (u, Some rating) ucs /\ isna (Some rating) = false.
Proof.
  unfold cell_ratings. split.
  - intros H. apply flat_map_nonempty in H. destruct H as ([c cell] & Hin & Hne).
    cbn [fst snd] in Hne. destruct cell as [rating|]; [|congruence].
    destruct (String.eqb c u) eqn:Ec; [|cbn [andb] in Hne; congruence].
    destruct (isna (Some rating)) eqn:Ena; [cbn [andb negb] in Hne; congruence|].
    apply String.eqb_eq in Ec. subst c. now exists rating.
  - intros (rating & Hin & Hna).
    apply (flat_map_In_nonempty _ _ (u, Some rating) Hin).
    cbn [fst snd]. rewrite String.eqb_refl, Hna. discriminate.
Qed.


Lemma stats_of_none_iff (l : list (pynum F)) : stats_of l = None <-> l = [].
Proof. destruct l; split; (reflexivity || discriminate). Qed.

End AggregatorMore.

(** X1. Rows whose genre cell is missing, not a string or empty contribute
    nothing: dropping them from the table leaves the outcome of
    [calculate_genre_preferences] unchanged, whatever their rating cells
    hold. *)
Theorem rows_without_genre_are_skipped {F : Type} {FA : FloatArith F}
    {RT : Runtime} (df : DataFrame F) :
  calculate_genre_preferences
    {| columns := columns df; rows := filter has_genre (rows df) |}
  = calculate_genre_preferences df.
Proof.
  unfold calculate_genre_preferences, calculate_rows. cbn [columns rows].
  apply for_each_filter_skipped.
Qed.



(** X3. The users of the mapping [calculate_genre_preferences] returns are
    exactly the columns that hold a rating that is not null in some row with
    a genre; each of them is a column of the frame whose name starts with
    ["user_"], and each has at least one genre entry. *)
Theorem aggregator_users_are_rated_columns {F : Type} {FA : FloatArith F}
    {RT : Runtime} (df : DataFrame F) (prefs : Preferences F) (user : string) :
  calculate_genre_preferences df = Ok prefs ->
  (In user (keys prefs)
   <-> exists row rating,
         In row (rows df) /\ has_genre row = true
         /\ In (user, Some rating) (combine (columns df) (cells row))
         /\ startswith "user_" user = true
         /\ isna (Some rating) = false)
  /\ (In user (keys prefs) ->
      In user (columns df) /\ startswith "user_" user = true
      /\ exists g st, stats_at prefs user g = Some st).
Proof.
  intros Hrun. unfold calculate_genre_preferences in Hrun.
  destruct (calculate_rows_ok _ _ _ Hrun) as [Hnoraise Hspec].
  pose proof (calculate_rows_users_nonempty _ _ _ Hrun) as Hne.
  assert (Hfwd : In user (keys prefs) ->
            exists g st, stats_at prefs user g = Some st).
  { intros Hin. apply dict_get_In in Hin.
    destruct (dict_get user prefs) as [up|] eqn:Eu; [|congruence].
    pose proof (Hne user up Eu) as Hup.
    destruct up as [|[g st] up]; [congruence|].
    exists g, st. unfold stats_at. rewrite Eu. cbn [dict_get].
    now rewrite String.eqb_refl. }
  assert (Hcells : In user (keys prefs) ->
            exists row rating,
              In row (rows df) /\ has_genre row = true
              /\ In (user, Some rating) (combine (columns df) (cells row))
              /\ startswith "user_" user = true
              /\ isna (Some rating) = false).
  { intros Hin. destruct (Hfwd Hin) as (g & st & Hst).
    rewrite Hspec in Hst.
    assert (Hc : contributions (columns df) (rows df) user g <> []).
    { intros E. rewrite E in Hst. discriminate. }
    apply flat_map_nonempty in Hc. destruct Hc as (row & Hrow & Hr).
    unfold row_ratings in Hr.
    destruct (genre row) as [raw|] eqn:Eg; [|congruence].
    destruct (String.eqb raw "") eqn:Eraw; [congruence|].
    destruct (effective_genre raw) as [g'|]; [|congruence].
    destruct (String.eqb g' g); [|congruence].
    apply cell_ratings_nonempty in Hr. destruct Hr as (rating & Hcell & Hna).
    unfold user_cells in Hcell. apply filter_In in Hcell.
    destruct Hcell as [Hcell Hpre]. cbn [fst] in Hpre.
    exists row, rating.
    split; [exact Hrow|].
    split; [unfold has_genre; now rewrite Eg, Eraw|]. split; [exact Hcell|].
    split; [exact Hpre | exact Hna]. }
  split; [split; [exact Hcells|] | ].
  - intros (row & rating & Hrow & Hg & Hcell & Hpre & Hna).
    assert (Hr : row_raises row = false).
    { destruct (row_raises row) eqn:E; [|reflexivity].
      assert (existsb row_raises (rows df) = true)
        by (apply existsb_exists; now exists row).
      congruence. }
    unfold has_genre in Hg. unfold row_raises in Hr.
    destruct (genre row) as [raw|] eqn:Eg; [|discriminate].
    rewrite Hg in Hr. cbn [andb] in Hr.
    destruct (effective_genre raw) as [g|] eqn:Ee; [|discriminate].
    assert (Hc : contributions (columns df) (rows df) user g <> []).
    { apply (flat_map_In_nonempty _ _ row Hrow). unfold row_ratings.
      rewrite Eg, Ee, String.eqb_refl.
      apply negb_true_iff in Hg. rewrite Hg.
      apply cell_ratings_nonempty. exists rating. split; [|exact Hna].
      unfold user_cells. apply filter_In. split; [exact Hcell | exact Hpre]. }
    apply dict_get_In. intros E.
    specialize (Hspec user g). unfold stats_at in Hspec. rewrite E in Hspec.
    symmetry in Hspec. apply stats_of_none_iff in Hspec. contradiction.
  - intros Hin. destruct (Hcells Hin) as (row & rating & _ & _ & Hcell & Hpre & _).
    split; [now apply in_combine_l in Hcell|]. split; [exact Hpre | now apply Hfwd].
Qed.

Lemma aggregator_users_are_rated_columns_witness :
  In "user_B" (columns scenario_df) /\ startswith "user_" "user_B" = true
  /\ exists g st, stats_at scenario_prefs "user_B" g = Some st.
Proof.
  apply (aggregator_users_are_rated_columns scenario_df scenario_prefs "user_B").
  - reflexivity.
  - right. left. reflexivity.
Defined.

(** X4. A frame with no column whose name starts with ["user_"] gives the
    empty mapping, unless reading the genre of a row raises: an empty list
    literal, or an exception of the parser that line 30 does not catch,
    ends the call although there is nothing to rate.  A first item that
    cannot be a key does no harm here, since line 43 is never reached. *)
Theorem no_user_columns_empty_mapping {F : Type} {FA : FloatArith F}
    {RT : General.Runtime} (df : DataFrame F) :
  (forall c, In c (columns df) -> startswith "user_" c = false) ->
  General.calculate_genre_preferences df
  = match first_exception genre_exception (rows df) with
    | Some e => Raise e
    | None => Ok []
    end.
Proof.
  intros Hcols. unfold General.calculate_genre_preferences, General.calculate_rows.
  now apply for_each_rows_no_user_column.
Qed.

Lemma no_user_columns_empty_mapping_witness :
  General.calculate_genre_preferences (RT := example_runtime) no_user_df = Ok []
  /\ General.calculate_genre_preferences (RT := example_runtime)
       (no_user_rows ["Rock"; "[['a']]"; "[1, 2]"]) = Ok []
  /\ General.calculate_genre_preferences (RT := example_runtime)
       (no_user_rows ["Rock"; "[{[]}]"; "[]"]) = Raise TypeError.
Proof.
  split; [|split].
  - apply (no_user_columns_empty_mapping (RT := example_runtime) no_user_df).
    intros c [<- | [<- | []]]; reflexivity.
  - apply (no_user_columns_empty_mapping (RT := example_runtime)
             (no_user_rows ["Rock"; "[['a']]"; "[1, 2]"])).
    intros c [<- | [<- | []]]; reflexivity.
  - apply (no_user_columns_empty_mapping (RT := example_runtime)
             (no_user_rows ["Rock"; "[{[]}]"; "[]"])).
    intros c [<- | [<- | []]]; reflexivity.
Defined.





(** ** The ranker *)

Section RankerMore.
Context {F : Type} {FA : FloatArith F} {RT : Runtime}.
Implicit Types (prefs : Preferences F) (target u : string).

Lemma NoDup_firstn {A : Type} (m : nat) (l : list A) : NoDup l -> NoDup (firstn m l).
Proof.
  intros H. rewrite <- (firstn_skipn m l) in H. now apply NoDup_app_remove_r in H.
Qed.

Lemma StronglySorted_firstn {A : Type} (R : A -> A -> Prop) (m : nat) (l : list A) :
  StronglySorted R l -> StronglySorted R (firstn m l).
Proof.
  intros H. revert m. induction H as [|a l Hs IH Ha]; intros m.
  - rewrite firstn_nil. constructor.
  - destruct m as [|m]; cbn [firstn]; constructor; [apply IH|].
    rewrite Forall_forall in *. intros x Hx. apply Ha. now apply In_firstn in Hx.
Qed.

Lemma map_slice_to {A B : Type} (f : A -> B) (l : list A) (n : Z) :
  map f (slice_to l n) = slice_to (map f l) n.
Proof.
  unfold slice_to. rewrite length_map.
  destruct (0 <=? n); symmetry; apply firstn_map.
Qed.

Lemma NoDup_other_users prefs target :
  NoDup (keys prefs) -> NoDup (other_users target prefs).
Proof. apply NoDup_filter. Qed.

Lemma keys_similarity_table prefs target :
  NoDup (keys prefs) -> keys (similarity_table target prefs) = other_users target prefs.
Proof. apply keys_similarities. Qed.

Lemma NoDup_keys_similarity_table prefs target :
  NoDup (keys prefs) -> NoDup (keys (similarity_table target prefs)).
Proof.
  intros Hnd. rewrite (keys_similarity_table _ _ Hnd). now apply NoDup_other_users.
Qed.

(** Whatever [n] is, the ranking lists candidates only. *)
Lemma find_similar_users_candidates prefs target n u :
  NoDup (keys prefs) ->
  In u (find_similar_users target prefs n) -> In u (other_users target prefs).
Proof.
  intros Hnd. destruct (dict_mem target prefs) eqn:Hmem.
  - rewrite (find_similar_users_unfold _ _ _ Hnd Hmem). intros Hu.
    apply in_map_iff in Hu. destruct Hu as (x & <- & Hx).
    apply slice_to_incl, (proj1 (sorted_desc_In snd _ _)) in Hx.
    rewrite <- (keys_similarity_table _ _ Hnd). now apply in_map.
  - unfold find_similar_users. rewrite Hmem. contradiction.
Qed.

Lemma find_similar_users_NoDup prefs target n :
  NoDup (keys prefs) -> NoDup (find_similar_users target prefs n).
Proof.
  intros Hnd. destruct (dict_mem target prefs) eqn:Hmem.
  - rewrite (find_similar_users_unfold _ _ _ Hnd Hmem), map_slice_to.
    destruct (slice_to_firstn
                (map fst (sorted_desc snd (similarity_table target prefs))) n)
      as [m ->].
    apply NoDup_firstn.
    apply (Permutation_NoDup
             (Permutation_sym
                (Permutation_map fst (sorted_desc_perm snd (similarity_table target prefs))))).
    now apply NoDup_keys_similarity_table.
  - unfold find_similar_users. rewrite Hmem. constructor.
Qed.

(** A list in which no key is below another one is left as it is. *)
Lemma sorted_desc_ties {A : Type} (key : A -> F) (l : list A) :
  (forall x y, In x l -> In y l -> fltb (key x) (key y) = false) ->
  sorted_desc key l = l.
Proof.
  induction l as [|x l IH]; intros H; cbn [sorted_desc]; [reflexivity|].
  rewrite IH by (intros a b Ha Hb; apply H; now right).
  destruct l as [|y l]; cbn [insert_desc]; [reflexivity|].
  rewrite (H x y); [reflexivity | now left | right; now left].
Qed.


End RankerMore.

(** X7. [find_similar_users] lists no user twice, and lists only users of
    the mapping other than the target, for every [n], negative or not. *)
Theorem similar_users_distinct_candidates {F : Type} {FA : FloatArith F}
    {RT : Runtime} (prefs : Preferences F) (target : string) (n : Z) :
  NoDup (keys prefs) ->
  NoDup (find_similar_users target prefs n)
  /\ forall u,
       In u (find_similar_users target prefs n) ->
       In u (keys prefs) /\ u <> target.
Proof.
  intros Hnd. split; [now apply find_similar_users_NoDup|].
  intros u Hu. apply (find_similar_users_candidates _ _ _ _ Hnd) in Hu.
  unfold other_users in Hu. apply filter_In in Hu. destruct Hu as [Hin Hne].
  split; [exact Hin|]. intros ->. now rewrite String.eqb_refl in Hne.
Qed.

Lemma similar_users_distinct_candidates_witness :
  NoDup (find_similar_users "user_A" zero_target_prefs (-1))
  /\ forall u,
       In u (find_similar_users "user_A" zero_target_prefs (-1)) ->
       In u (keys zero_target_prefs) /\ u <> "user_A".
Proof.
  apply (similar_users_distinct_candidates zero_target_prefs "user_A" (-1)).
  repeat constructor; simpl; intuition discriminate.
Defined.

(** X8. The list [find_similar_users] returns is ordered by similarity, the
    most similar first: no user has a similarity below that of a user listed
    after it, nor below that of a candidate left out.  (Stated where [<] is
    a strict weak order on the similarities, that is, where none is NaN.) *)
Theorem similar_users_ranked_by_similarity {F : Type} {FA : FloatArith F}
    {RT : Runtime} (prefs : Preferences F) (target : string) (n : Z) :
  NoDup (keys prefs) ->
  dict_mem target prefs = true ->
  strict_weak_on (map snd (similarity_table target prefs)) = true ->
  find_similar_users target prefs n = map fst (ranked target prefs n)
  /\ (forall u s,
         In (u, s) (ranked target prefs n) -> similarity_to target prefs u = Some s)
  /\ StronglySorted (fun a b => fltb (snd a) (snd b) = false)
       (ranked target prefs n)
  /\ (forall u s v s',
         In (u, s) (ranked target prefs n) ->
         similarity_to target prefs v = Some s' ->
         ~ In v (find_similar_users target prefs n) ->
         fltb s s' = false).
Proof.
  intros Hnd Hmem Hwo. apply strict_weak_on_spec in Hwo.
  pose proof (sorted_desc_sorted snd _ Hwo) as Hsorted.
  pose proof (NoDup_keys_similarity_table _ target Hnd) as Hnds.
  rewrite (find_similar_users_unfold _ _ _ Hnd Hmem). unfold ranked.
  destruct (slice_to_firstn (sorted_desc snd (similarity_table target prefs)) n)
    as [m ->].
  split; [reflexivity|]. split; [|split].
  - intros u s Hin. apply In_firstn, (proj1 (sorted_desc_In snd _ _)) in Hin.
    unfold similarity_to. now apply In_pair_dict_get.
  - now apply StronglySorted_firstn.
  - intros u s v s' Hin Hv Hout.
    apply (sorted_prefix_dominates snd _ m (u, s) (v, s') Hsorted Hin).
    unfold similarity_to in Hv. apply (dict_get_In_pair _ _ _ Hnds) in Hv.
    apply (proj2 (sorted_desc_In snd _ _)) in Hv.
    rewrite <- (firstn_skipn m (sorted_desc snd (similarity_table target prefs))) in Hv.
    apply in_app_or in Hv. destruct Hv as [Hv | Hv]; [|exact Hv].
    exfalso. apply Hout. change v with (fst (v, s')). now apply in_map.
Qed.

Lemma similar_users_ranked_by_similarity_witness :
  find_similar_users "user_A" four_users_prefs 2
  = map fst (ranked "user_A" four_users_prefs 2)
  /\ ranked "user_A" four_users_prefs 2
     = [("user_C", 0.99654575824487956%float);
        ("user_B", 0.54626778054692238%float)]
  /\ StronglySorted (fun a b => fltb (snd a) (snd b) = false)
       (ranked "user_A" four_users_prefs 2)
  /\ similarity_to "user_A" four_users_prefs "user_D"
     = Some 0.37139067635410372%float
  /\ ~ In "user_D" (find_similar_users "user_A" four_users_prefs 2)
  /\ fltb 0.54626778054692238%float 0.37139067635410372%float = false.
Proof.
  assert (Hranked : ranked "user_A" four_users_prefs 2
                    = [("user_C", 0.99654575824487956%float);
                       ("user_B", 0.54626778054692238%float)])
    by (vm_compute; reflexivity).
  assert (Hleft : similarity_to "user_A" four_users_prefs "user_D"
                  = Some 0.37139067635410372%float)
    by (vm_compute; reflexivity).
  assert (Hout : ~ In "user_D" (find_similar_users "user_A" four_users_prefs 2))
    by (vm_compute; intuition discriminate).
  destruct (similar_users_ranked_by_similarity four_users_prefs "user_A" 2)
    as (Heq & _ & Hsorted & Hdom).
  - repeat constructor; simpl; intuition discriminate.
  - reflexivity.
  - vm_compute. reflexivity.
  - split; [exact Heq|]. split; [exact Hranked|]. split; [exact Hsorted|].
    split; [exact Hleft|]. split; [exact Hout|].
    apply (Hdom "user_B" _ "user_D" _); [|exact Hleft|exact Hout].
    rewrite Hranked. right. now left.
Defined.

(** X9. Asking for fewer users gives a prefix of what asking for more
    gives: for 0 <= n <= m the result for [n] is the first [n] entries of
    the result for [m]. *)
Theorem similar_users_prefix {F : Type} {FA : FloatArith F} {RT : Runtime}
    (prefs : Preferences F) (target : string) (n m : Z) :
  0 <= n <= m ->
  find_similar_users target prefs n
  = firstn (Z.to_nat n) (find_similar_users target prefs m).
Proof.
  intros Hnm. unfold find_similar_users.
  destruct (negb (dict_mem target prefs)); [now rewrite firstn_nil|].
  cbv zeta. destruct (dict_get target (user_vectors_of prefs)) as [tv|];
    [|now rewrite firstn_nil].
  rewrite !slice_to_nonneg by lia.
  rewrite <- !firstn_map, firstn_firstn. f_equal. lia.
Qed.

Lemma similar_users_prefix_witness :
  find_similar_users "user_A" zero_target_prefs 1
  = firstn (Z.to_nat 1) (find_similar_users "user_A" zero_target_prefs 2).
Proof. apply similar_users_prefix. lia. Defined.

(** X10. A negative [n] is neither an error nor read as 0: [[:n]] then
    drops the last [-n] users of the full ranking, so the call returns all
    candidates but the [-n] least similar ones.  The list is empty exactly
    when [-n] reaches the number of candidates. *)
Theorem similar_users_negative_n {F : Type} {FA : FloatArith F} {RT : Runtime}
    (prefs : Preferences F) (target : string) (n : Z) :
  NoDup (keys prefs) ->
  dict_mem target prefs = true ->
  n < 0 ->
  find_similar_users target prefs n
  = firstn (List.length (other_users target prefs) - Z.to_nat (- n))
           (find_similar_users target prefs
              (Z.of_nat (List.length (other_users target prefs))))
  /\ List.length (find_similar_users target prefs n)
     = (List.length (other_users target prefs) - Z.to_nat (- n))%nat
  /\ (find_similar_users target prefs n = []
      <-> Z.of_nat (List.length (other_users target prefs)) <= - n).
Proof.
  intros Hnd Hmem Hn.
  assert (Hgoal :
    find_similar_users target prefs n
    = firstn (List.length (other_users target prefs) - Z.to_nat (- n))
             (find_similar_users target prefs
                (Z.of_nat (List.length (other_users target prefs))))
    /\ List.length (find_similar_users target prefs n)
       = (List.length (other_users target prefs) - Z.to_nat (- n))%nat);
    [|destruct Hgoal as [Hslice Hlength]; split; [exact Hslice|split; [exact Hlength|]];
      rewrite <- length_zero_iff_nil, Hlength; lia].
  rewrite !(find_similar_users_unfold _ _ _ Hnd Hmem).
  set (S := sorted_desc snd (similarity_table target prefs)).
  assert (Hlen : List.length S = List.length (other_users target prefs)).
  { unfold S. rewrite sorted_desc_length, <- (keys_similarity_table _ _ Hnd).
    unfold keys. now rewrite length_map. }
  assert (Hneg : slice_to S n
                 = firstn (List.length (other_users target prefs) - Z.to_nat (- n)) S).
  { unfold slice_to. destruct (0 <=? n) eqn:E; [apply Z.leb_le in E; lia|].
    now rewrite Hlen. }
  rewrite Hneg, slice_to_nonneg by lia. rewrite Nat2Z.id, <- Hlen, firstn_all.
  split; [now rewrite firstn_map|].
  rewrite length_map, length_firstn. lia.
Qed.

Lemma similar_users_negative_n_witness :
  find_similar_users "user_A" zero_target_prefs (-1)
  = firstn (List.length (other_users "user_A" zero_target_prefs) - Z.to_nat (- -1))
           (find_similar_users "user_A" zero_target_prefs
              (Z.of_nat (List.length (other_users "user_A" zero_target_prefs))))
  /\ List.length (find_similar_users "user_A" zero_target_prefs (-1))
     = (List.length (other_users "user_A" zero_target_prefs) - Z.to_nat (- -1))%nat
  /\ (find_similar_users "user_A" zero_target_prefs (-1) = []
      <-> Z.of_nat (List.length (other_users "user_A" zero_target_prefs)) <= - -1).
Proof.
  apply (similar_users_negative_n zero_target_prefs "user_A" (-1)).
  - repeat constructor; simpl; intuition discriminate.
  - reflexivity.
  - lia.
Defined.

(** With two candidates, [n = -1] leaves the more similar one and [n = -2]
    leaves none. *)
Lemma negative_n_examples :
  find_similar_users "user_A" zero_target_prefs (-1) = ["user_B"]
  /\ find_similar_users "user_A" zero_target_prefs (-2) = []
  /\ find_similar_users "user_A" zero_target_prefs (-3) = [].
Proof. repeat split; vm_compute; reflexivity. Qed.

Section Binary64More.
Import FloatAxioms.
Context {RT : Runtime}.

Lemma SFmul_comm (a b : spec_float) : SF64mul a b = SF64mul b a.
Proof.
  unfold SF64mul, SFmul.
  destruct a as [sa|sa| |sa ma ea], b as [sb|sb| |sb mb eb]; try reflexivity;
    rewrite (xorb_comm sa sb); try reflexivity.
  now rewrite (Pos.mul_comm ma mb), (Z.add_comm ea eb).
Qed.

Lemma float_mul_comm (x y : float) : PrimFloat.mul x y = PrimFloat.mul y x.
Proof. apply Prim2SF_inj. rewrite !mul_spec. apply SFmul_comm. Qed.

Lemma dot_comm_from (u : list float) :
  forall (v : list float) (acc : float),
    fold_left (fun a ab => fadd a (fmul (fst ab) (snd ab))) (combine u v) acc
    = fold_left (fun a ab => fadd a (fmul (fst ab) (snd ab))) (combine v u) acc.
Proof.
  induction u as [|x u IH]; intros [|y v] acc; cbn [combine fold_left fst snd];
    try reflexivity.
  change (@fmul float binary64) with PrimFloat.mul.
  rewrite (float_mul_comm x y). apply IH.
Qed.

Lemma dot_comm (u v : list float) : dot u v = dot v u.
Proof. apply dot_comm_from. Qed.

Lemma cosine_sim_comm (u v : list float) : cosine_sim u v = cosine_sim v u.
Proof.
  unfold cosine_sim. rewrite (dot_comm u v), orb_comm.
  change (@fmul float binary64) with PrimFloat.mul.
  now rewrite (float_mul_comm (norm u) (norm v)).
Qed.

Lemma cosine_sim_zero_target (z v : list float) :
  Forall (fun x => PrimFloat.eqb x 0 = true) z -> cosine_sim z v = 0%float.
Proof.
  intros Hz. unfold cosine_sim. now rewrite (norm_zero_vector z Hz).
Qed.

Lemma similarity_of_present (prefs : Preferences float) (a b : string) :
  NoDup (keys prefs) -> a <> b -> dict_mem b prefs = true ->
  similarity_to a prefs b
  = Some (cosine_sim (vector_in prefs a) (vector_in prefs b)).
Proof.
  intros Hnd Hne Hb. rewrite (similarity_to_other _ _ _ Hnd).
  assert (E : String.eqb b a = false) by (apply String.eqb_neq; congruence).
  rewrite E. unfold vector_in at 3. unfold dict_get_default, dict_mem in *.
  now destruct (dict_get b prefs).
Qed.

End Binary64More.

(** X11. When every average of the target is zero (so its vector is all
    zeros), every similarity is 0, the sort moves nothing, and
    [find_similar_users] returns the other users in the order of the
    mapping, cut by [n]. *)
Theorem zero_target_keeps_mapping_order {RT : Runtime}
    (prefs : Preferences float) (target : string) (n : Z) :
  NoDup (keys prefs) ->
  dict_mem target prefs = true ->
  Forall (fun x => PrimFloat.eqb x 0 = true) (vector_in prefs target) ->
  (forall u s, similarity_to target prefs u = Some s -> s = 0%float)
  /\ find_similar_users target prefs n = slice_to (other_users target prefs) n.
Proof.
  intros Hnd Hmem Hz.
  assert (Hall : forall x, In x (similarity_table target prefs) -> snd x = 0%float).
  { intros x Hx. unfold similarity_table in Hx.
    rewrite (similarities_structure _ _ _ Hnd) in Hx.
    apply in_map_iff in Hx. destruct Hx as (up & <- & _). cbn [snd].
    now apply cosine_sim_zero_target. }
  split.
  - intros u s Hs. unfold similarity_to in Hs.
    apply (dict_get_In_pair _ _ _ (NoDup_keys_similarity_table _ target Hnd)) in Hs.
    exact (Hall _ Hs).
  - rewrite (find_similar_users_unfold _ _ _ Hnd Hmem).
    rewrite sorted_desc_ties.
    + rewrite map_slice_to. f_equal. now apply keys_similarity_table.
    + intros x y Hx Hy. rewrite (Hall x Hx), (Hall y Hy). reflexivity.
Qed.

Lemma zero_target_keeps_mapping_order_witness :
  find_similar_users "user_A" zero_target_prefs 2 = ["user_B"; "user_C"].
Proof.
  destruct (zero_target_keeps_mapping_order zero_target_prefs "user_A" 2)
    as [_ H].
  - repeat constructor; simpl; intuition discriminate.
  - reflexivity.
  - repeat constructor.
  - exact H.
Defined.

(** X12. In binary64 the similarity is symmetric: for two users of the
    mapping, the similarity stored for [b] when [a] is the target is the one
    stored for [a] when [b] is the target, bit for bit. *)
Theorem similarity_is_symmetric {RT : Runtime}
    (prefs : Preferences float) (a b : string) :
  NoDup (keys prefs) ->
  dict_mem a prefs = true ->
  dict_mem b prefs = true ->
  a <> b ->
  similarity_to a prefs b = similarity_to b prefs a
  /\ exists s, similarity_to a prefs b = Some s.
Proof.
  intros Hnd Ha Hb Hne.
  rewrite (similarity_of_present prefs a b Hnd Hne Hb).
  rewrite (similarity_of_present prefs b a Hnd (not_eq_sym Hne) Ha).
  split; [now rewrite cosine_sim_comm | now eexists].
Qed.

Lemma similarity_is_symmetric_witness :
  similarity_to "user_A" scenario_prefs "user_B"
  = similarity_to "user_B" scenario_prefs "user_A"
  /\ exists s, similarity_to "user_A" scenario_prefs "user_B" = Some s.
Proof.
  apply (similarity_is_symmetric scenario_prefs "user_A" "user_B").
  - repeat constructor; simpl; intuition discriminate.
  - reflexivity.
  - reflexivity.
  - discriminate.
Defined.

(** ** The recommender *)

Section RecommenderMore.
Context {F : Type} {FA : FloatArith F} {RT : Runtime}.
Implicit Types (prefs : Preferences F) (similar : list string).

Lemma in_set_false (g : string) (s : list string) : in_set g s = false -> ~ In g s.
Proof.
  unfold in_set. intros H Hin.
  assert (E : existsb (String.eqb g) s = true).
  { apply existsb_exists. exists g. split; [exact Hin | apply String.eqb_refl]. }
  congruence.
Qed.

Lemma best_genre_In (scores : dict F) (g : string) :
  best_genre scores = Some g -> In g (keys scores).
Proof.
  unfold best_genre. destruct scores as [|x scores]; [discriminate|].
  destruct (sorted_desc snd (x :: scores)) as [|b rest] eqn:E; [discriminate|].
  intros [= <-]. apply in_map. apply (proj1 (sorted_desc_In snd b (x :: scores))).
  rewrite E. now left.
Qed.

(** A genre with a score was found, outside the excluded set, among the
    preferences of a listed user. *)
Lemma scored_genre_origin prefs top similar (scores : dict F) (g : string) :
  genre_scores_of prefs top similar = Ok scores ->
  In g (keys scores) ->
  ~ In g top
  /\ exists u user_prefs st,
       In u similar /\ dict_get u prefs = Some user_prefs /\ In (g, st) user_prefs.
Proof.
  intros Hrun Hin.
  destruct (genre_scores_spec prefs top similar) as (scores' & Hrun' & _ & Hget).
  assert (scores' = scores) by congruence. subst scores'.
  apply dict_get_In in Hin. rewrite Hget in Hin.
  assert (Hterms : score_terms prefs top similar g <> []).
  { intros E. rewrite E in Hin. now apply Hin. }
  apply flat_map_nonempty in Hterms. destruct Hterms as (u & Hu & Hterms).
  unfold user_terms in Hterms.
  destruct (dict_get u prefs) as [user_prefs|] eqn:Eu; [|congruence].
  apply flat_map_nonempty in Hterms. destruct Hterms as ([g' st] & Hitem & Hterms).
  unfold item_terms in Hterms. cbn [fst snd] in Hterms.
  destruct (in_set g' top) eqn:Eset; [cbn [negb andb] in Hterms; congruence|].
  destruct (String.eqb g' g) eqn:Eg; [|cbn [negb andb] in Hterms; congruence].
  apply String.eqb_eq in Eg. subst g'.
  split; [now apply in_set_false|]. now exists u, user_prefs, st.
Qed.

Lemma recommended_genre_origin prefs (target : string) similar (k : Z) (g : string) :
  find_next_best_genre target prefs similar k = Ok (Some g) ->
  ~ In g (excluded_genres target prefs k)
  /\ exists u user_prefs st,
       In u similar /\ dict_get u prefs = Some user_prefs /\ In (g, st) user_prefs.
Proof.
  unfold find_next_best_genre, excluded_genres.
  destruct (is_empty similar || negb (dict_mem target prefs)); [discriminate|].
  destruct (genre_scores_of prefs
              (target_top_genres_of (dict_get_default target prefs []) k) similar)
    as [scores|e] eqn:Hrun; [|discriminate].
  cbn [bind]. intros [= Hbest]. apply best_genre_In in Hbest.
  now apply (scored_genre_origin _ _ _ _ _ Hrun).
Qed.

Lemma index_of_nth (l : list string) :
  NoDup l -> forall i u, nth_error l i = Some u -> index_of u l = Z.of_nat i.
Proof.
  induction 1 as [|x l Hx Hnd IH]; intros [|i] u Hnth; try discriminate.
  - cbn [nth_error] in Hnth. injection Hnth as <-. cbn [index_of].
    now rewrite String.eqb_refl.
  - cbn [nth_error] in Hnth. cbn [index_of].
    destruct (String.eqb x u) eqn:E.
    + apply String.eqb_eq in E. subst u. apply nth_error_In in Hnth. contradiction.
    + rewrite (IH i u Hnth). lia.
Qed.

Lemma filter_all {A : Type} (f : A -> bool) (l : list A) :
  (forall x, In x l -> f x = true) -> filter f l = l.
Proof.
  intros H. apply forallb_filter_id. now apply forallb_forall.
Qed.

End RecommenderMore.

(** X13. A genre [find_next_best_genre] returns is never one of the
    target's excluded top-k genres, and it is always a genre for which some
    user of [similar_users] has statistics in the mapping. *)
Theorem recommendation_is_not_excluded {F : Type} {FA : FloatArith F}
    {RT : Runtime} (prefs : Preferences F) (target : string)
    (similar : list string) (k : Z) (g : string) :
  find_next_best_genre target prefs similar k = Ok (Some g) ->
  ~ In g (excluded_genres target prefs k)
  /\ exists u user_prefs st,
       In u similar /\ dict_get u prefs = Some user_prefs /\ In (g, st) user_prefs.
Proof.
  intros Hres.
  destruct (recommended_genre_origin _ _ _ _ _ Hres) as [Hout Horigin].
  split; [exact Hout | exact Horigin].
Qed.

Lemma recommendation_is_not_excluded_witness :
  ~ In "Pop" (excluded_genres "user_A" scenario_prefs 1)
  /\ exists u user_prefs st,
       In u ["user_B"] /\ dict_get u scenario_prefs = Some user_prefs
       /\ In ("Pop", st) user_prefs.
Proof.
  apply (recommendation_is_not_excluded scenario_prefs "user_A" ["user_B"] 1 "Pop").
  vm_compute. reflexivity.
Defined.

(** X14. When [k] is at least the number of genres the target has
    statistics for, all of them are excluded, so a genre
    [find_next_best_genre] returns is new to the target. *)
Theorem large_k_recommends_new_genre {F : Type} {FA : FloatArith F}
    {RT : Runtime} (prefs : Preferences F) (target : string)
    (target_prefs : UserPreferences F) (similar : list string) (k : Z) (g : string) :
  dict_get target prefs = Some target_prefs ->
  Z.of_nat (List.length target_prefs) <= k ->
  find_next_best_genre target prefs similar k = Ok (Some g) ->
  ~ In g (keys target_prefs).
Proof.
  intros Htarget Hk Hres Hin.
  destruct (recommended_genre_origin _ _ _ _ _ Hres) as [Hout _].
  apply Hout. unfold excluded_genres, dict_get_default, target_top_genres_of.
  rewrite Htarget, slice_to_nonneg by lia.
  rewrite firstn_all2 by (rewrite sorted_desc_length; lia).
  apply (Permutation_in g (Permutation_sym
           (Permutation_map fst (sorted_desc_perm avg_key target_prefs)))).
  exact Hin.
Qed.

Lemma large_k_recommends_new_genre_witness :
  ~ In "Pop" (keys [("Rock", stat_of_int 0 0.0 1)]).
Proof.
  apply (large_k_recommends_new_genre zero_target_prefs "user_A"
           [("Rock", stat_of_int 0 0.0 1)] ["user_C"] 1 "Pop").
  - reflexivity.
  - cbn [List.length]. lia.
  - vm_compute. reflexivity.
Defined.

(** X15. The output of [find_similar_users] can be handed to
    [find_next_best_genre] as it is: the call does not raise, none of the
    listed users is skipped or is the target, and since no user is listed
    twice each one is weighted by its own rank in the list. *)
Theorem ranking_feeds_recommender {F : Type} {FA : FloatArith F}
    {RT : Runtime} (prefs : Preferences F) (target : string) (n k : Z) :
  NoDup (keys prefs) ->
  (exists outcome,
      find_next_best_genre target prefs (find_similar_users target prefs n) k
      = Ok outcome)
  /\ filter (fun u => dict_mem u prefs) (find_similar_users target prefs n)
     = find_similar_users target prefs n
  /\ ~ In target (find_similar_users target prefs n)
  /\ forall i u,
       nth_error (find_similar_users target prefs n) i = Some u ->
       index_of u (find_similar_users target prefs n) = Z.of_nat i.
Proof.
  intros Hnd.
  assert (Hcand : forall u, In u (find_similar_users target prefs n) ->
                            In u (keys prefs) /\ String.eqb u target = false).
  { intros u Hu. apply (find_similar_users_candidates _ _ _ _ Hnd) in Hu.
    unfold other_users in Hu. apply filter_In in Hu. destruct Hu as [Hin Hne].
    split; [exact Hin | now apply negb_true_iff]. }
  split; [|split; [|split]].
  - unfold find_next_best_genre.
    destruct (is_empty (find_similar_users target prefs n)
              || negb (dict_mem target prefs)); [now eexists|].
    destruct (genre_scores_spec prefs
                (target_top_genres_of (dict_get_default target prefs []) k)
                (find_similar_users target prefs n)) as (scores & -> & _).
    cbn [bind]. now eexists.
  - apply filter_all. intros u Hu. apply dict_mem_In. now apply Hcand.
  - intros Hin. destruct (Hcand _ Hin) as [_ E]. now rewrite String.eqb_refl in E.
  - apply index_of_nth. now apply find_similar_users_NoDup.
Qed.

Lemma ranking_feeds_recommender_witness :
  exists outcome,
    find_next_best_genre "user_A" scenario_prefs
      (find_similar_users "user_A" scenario_prefs 3) 2 = Ok outcome.
Proof.
  apply (ranking_feeds_recommender scenario_prefs "user_A" 3 2).
  repeat constructor; simpl; intuition discriminate.
Defined.


